(** * Structured event logging: rendering helpers and the audit event

    A shallow embedding of [logger/write_helpers.go] and
    [logger/audit_event.go].  Go strings are byte sequences and are modelled
    by [string] (a list of 8-bit [ascii] characters); Go's [int] and
    [time.Duration] are modelled by [Z]; a Go [map] is a [gmap], with the
    unspecified visiting order of a [range] loop made an explicit argument;
    an [io.Writer] is the sequence of bytes written to it so far. *)

From Stdlib Require Import ZArith String Ascii.
From stdpp Require Import base option gmap strings list sorting.

(** ** The Go library functions the logger calls *)

Module strings.

(** [strings.Join(elems, sep)]. *)
Fixpoint Join (elems : list string) (sep : string) : string :=
  match elems with
  | [] => ""
  | [e] => e
  | e :: rest => e +:+ sep +:+ Join rest sep
  end.

End strings.

Module fmt.

(** [fmt.Sprintf] for formats whose only verb is [%s], each operand being a
    string.  A verb without an operand prints as [%!s(MISSING)]; every call in
    the logger gives as many operands as verbs. *)
Fixpoint Sprintf (format : string) (a : list string) : string :=
  match format with
  | String "%" (String "s" format') =>
      match a with
      | arg :: a' => arg +:+ Sprintf format' a'
      | [] => "%!s(MISSING)" +:+ Sprintf format' []
      end
  | String c format' => String c (Sprintf format' a)
  | EmptyString => ""
  end.

End fmt.

Module sort.

(** [sort.Strings(x)]: [x] in increasing order, where [StringSlice.Less]
    compares with Go's [<] on strings, that is byte by byte; [String.le] is
    its reflexive closure.  The result of sorting by a total order does not
    depend on the algorithm; merge sort stands for Go's. *)
Definition Strings (x : list string) : list string := merge_sort String.le x.

(** Go's [s < t] on strings. *)
Definition Less (s t : string) : Prop := strict String.le s t.

End sort.

Module gomap.

(** A [for key := range m] loop visits every key of [m] once, in an order the
    language leaves unspecified: [order] is a visiting order of [m]. *)
Definition Range {V : Type} (m : gmap string V) (order : list string) : Prop :=
  order ≡ₚ elements (dom m).

(** [m[key]] on a [map[string]string]: the zero value when [key] is absent. *)
Definition index (m : gmap string string) (key : string) : string :=
  default "" (m !! key).

(** The keys of [m] in increasing order. *)
Definition sorted_keys {V : Type} (m : gmap string V) : list string :=
  sort.Strings (elements (dom m)).

End gomap.

Module textproto.

Definition is_lower (c : ascii) : bool :=
  (("a" <=? c) && (c <=? "z"))%char.

Definition is_upper (c : ascii) : bool :=
  (("A" <=? c) && (c <=? "Z"))%char.

Definition is_digit (c : ascii) : bool :=
  (("0" <=? c) && (c <=? "9"))%char.

(** [validHeaderFieldByte]: the token characters of RFC 7230. *)
Definition validHeaderFieldByte (c : ascii) : bool :=
  is_lower c || is_upper c || is_digit c ||
  bool_decide (c ∈ ["!"; "#"; "$"; "%"; "&"; "'"; "*"; "+"; "-"; "."; "^";
                    "_"; "`"; "|"; "~"]%char).

Definition toLower : N := 32.

Fixpoint all_valid (s : string) : bool :=
  match s with
  | EmptyString => true
  | String c s' => validHeaderFieldByte c && all_valid s'
  end.

(** The canonicalising loop: upper case for the first letter and for a letter
    after a dash, lower case for the others. *)
Fixpoint canonicalize (upper : bool) (a : string) : string :=
  match a with
  | EmptyString => ""
  | String c a' =>
      let c' :=
        if upper && is_lower c then ascii_of_N (N_of_ascii c - toLower)
        else if negb upper && is_upper c then ascii_of_N (N_of_ascii c + toLower)
        else c in
      String c' (canonicalize (Ascii.eqb c' "-") a')
  end.

(** [textproto.CanonicalMIMEHeaderKey(s)]: a key holding a byte that is not a
    token character is returned unchanged. *)
Definition CanonicalMIMEHeaderKey (s : string) : string :=
  if all_valid s then canonicalize true s else s.

End textproto.

Module http.

(** [http.Header], a [map[string][]string]; the nil header is the empty map. *)
Abbreviation Header := (gmap string (list string)).

(** [Header.Get(key)]: the first value stored under the canonical form of
    [key], or the empty string. *)
Definition Get (h : Header) (key : string) : string :=
  match h !! textproto.CanonicalMIMEHeaderKey key with
  | Some (v :: _) => v
  | _ => ""
  end.

End http.

Module ansi.

(** Modelled from the spec: [ansi.Color], the colour tag handed to [Colorize];
    package [ansi] is not among the sources.  The helpers name [ColorBlue] and
    [ColorGray]; every other tag is a [ColorOther]. *)
Inductive Color : Type :=
| ColorBlue
| ColorGray
| ColorOther (tag : string).

End ansi.

(** ** The logger *)

(** The [TextFormatter] interface, as far as the helpers use it. *)
Class TextFormatter (F : Type) : Type :=
  Colorize : F → string → ansi.Color → string.

(** [FormatHeaders]; [range] is the order in which [for key := range header]
    yields the keys. *)
Definition FormatHeaders {F : Type} `{!TextFormatter F}
    (tf : F) (keyColor : ansi.Color) (header : http.Header)
    (range : list string) : string :=
  let keys := foldl (λ keys key, keys ++ [key]) [] range in
  let keys := sort.Strings keys in
  let values :=
    foldl (λ values key,
             values ++ [fmt.Sprintf "%s:%s"
                          [Colorize tf key keyColor; http.Get header key]])
          [] keys in
  "{ " +:+ strings.Join values " " +:+ " }".

(** Modelled from the spec: the type [Labels], a mapping from string to
    string; its declaration is not among the sources. *)
Abbreviation Labels := (gmap string string).

(** [FormatLabels]; [range] is the order in which [for key := range labels]
    yields the keys. *)
Definition FormatLabels {F : Type} `{!TextFormatter F}
    (tf : F) (keyColor : ansi.Color) (labels : Labels)
    (range : list string) : string :=
  let keys := foldl (λ keys key, keys ++ [key]) [] range in
  let keys := sort.Strings keys in
  let values :=
    foldl (λ values key,
             values ++ [fmt.Sprintf "%s=%s"
                          [Colorize tf key keyColor; gomap.index labels key]])
          [] keys in
  strings.Join values " ".

(** ** Effects

    Code that writes to its [io.Writer], or that updates events through
    pointers, is a state transformer that may panic ([None]). *)

Definition State (S A : Type) : Type := S → option (A * S).

#[global] Instance State_ret {S : Type} : MRet (State S) :=
  λ A a s, Some (a, s).

#[global] Instance State_bind {S : Type} : MBind (State S) :=
  λ A B f c s, match c s with
               | Some (a, s') => f a s'
               | None => None
               end.

(** A nil dereference. *)
Definition panic {S A : Type} : State S A := λ _, None.

(** [*p] for a pointer that may be nil. *)
Definition deref {S A : Type} (p : option A) : State S A :=
  match p with
  | Some a => mret a
  | None => panic
  end.

(** [if cond { body }]. *)
Definition when {S : Type} (cond : bool) (body : State S unit) : State S unit :=
  if cond then body else mret tt.

Module io.

(** An [io.Writer] that keeps what it is given, as a [bytes.Buffer] does: the
    bytes written so far. *)
Abbreviation Writer := string.

(** [io.WriteString(wr, s)], the writer being the state; the helpers drop the
    count and the error it returns. *)
Definition WriteString (s : string) : State Writer unit :=
  λ wr, Some (tt, wr +:+ s).

End io.

Module url.

(** [url.URL], seen through the one method the logger calls on it: [Text u]
    is the string [u.String()] returns. *)
Record URL : Type := { Text : string }.

End url.

Module httpreq.

(** The fields of [http.Request] the logger and its collaborators read. *)
Record Request : Type := {
  Method : string;
  URL : option url.URL;
  Header : http.Header;
  RemoteAddr : string
}.

End httpreq.

Module time.

(** [time.Duration]: a count of nanoseconds in an [int64]. *)
Abbreviation Duration := Z.

Definition Nanosecond : Duration := 1%Z.
Definition Microsecond : Duration := (1000 * Nanosecond)%Z.
Definition Millisecond : Duration := (1000 * Microsecond)%Z.
Definition Second : Duration := (1000 * Millisecond)%Z.

(** [byte(v%10) + '0']. *)
Definition digit (v : Z) : ascii := ascii_of_N (Z.to_N (v mod 10)%Z + 48).

(** The loop of [fmtFrac]; [buf] is the part of the buffer already filled,
    [buf[w:]], which grows to the left. *)
Fixpoint fmtFrac_loop (prec : nat) (buf : string) (v : Z) (print : bool)
    : string * Z * bool :=
  match prec with
  | O => (buf, v, print)
  | S prec' =>
      let print := print || negb (v mod 10 =? 0)%Z in
      let buf := if print then String (digit v) buf else buf in
      fmtFrac_loop prec' buf (v / 10)%Z print
  end.

(** [fmtFrac(buf[:w], v, prec)]: [v/10^prec] and its fraction, without
    trailing zeros. *)
Definition fmtFrac (buf : string) (v : Z) (prec : nat) : string * Z :=
  let '(buf, v, print) := fmtFrac_loop prec buf v false in
  (if print then String "." buf else buf, v).

(** The loop of [fmtInt], [for v > 0]; a [uint64] has at most 20 digits. *)
Fixpoint fmtInt_loop (fuel : nat) (buf : string) (v : Z) : string :=
  match fuel with
  | O => buf
  | S fuel' =>
      if (0 <? v)%Z then fmtInt_loop fuel' (String (digit v) buf) (v / 10)%Z
      else buf
  end.

(** [fmtInt(buf[:w], v)]. *)
Definition fmtInt (buf : string) (v : Z) : string :=
  if (v =? 0)%Z then String "0" buf else fmtInt_loop 20 buf v.

(** [Duration.String()]. *)
Definition Duration_String (d : Duration) : string :=
  let u := Z.abs d in
  let neg := (d <? 0)%Z in
  let buf :=
    if (u <? Second)%Z then
      if (u =? 0)%Z then "0s"
      else
        let '(unit, prec) :=
          if (u <? Microsecond)%Z then ("ns", 0%nat)
          else if (u <? Millisecond)%Z then ("µs", 3%nat)
          else ("ms", 6%nat) in
        let '(buf, u) := fmtFrac unit u prec in
        fmtInt buf u
    else
      let '(buf, u) := fmtFrac "s" u 9 in
      let buf := fmtInt buf (u mod 60)%Z in
      let u := (u / 60)%Z in
      if (0 <? u)%Z then
        let buf := fmtInt (String "m" buf) (u mod 60)%Z in
        let u := (u / 60)%Z in
        if (0 <? u)%Z then fmtInt (String "h" buf) u else buf
      else buf in
  if (u =? 0)%Z then buf else if neg then String "-" buf else buf.

End time.

(** Modelled from the spec: the logger's constant [Space], the single space
    that separates fields; its declaration is not among the sources. *)
Definition Space : string := " ".

Section write_helpers.

Context {F : Type} `{!TextFormatter F}.

(** Collaborators of the helpers that are not among the sources:
    [webutil.GetRemoteAddr], [ColorizeStatusCodeWithFormatter] and
    [stringutil.FileSize]. *)
Variable GetRemoteAddr : option httpreq.Request → string.
Variable ColorizeStatusCodeWithFormatter : F → Z → string.
Variable FileSize : Z → string.

(** [WriteHTTPRequest(tf, wr, req)]. *)
Definition WriteHTTPRequest (tf : F) (req : option httpreq.Request)
    : State io.Writer unit :=
  (let ip := GetRemoteAddr req in
   when (bool_decide (0 < String.length ip))
     (io.WriteString ip;;
      io.WriteString Space));;
  r ← deref req;
  io.WriteString (Colorize tf (httpreq.Method r) ansi.ColorBlue);;
  match httpreq.URL r with
  | Some u =>
      io.WriteString Space;;
      io.WriteString (url.Text u)
  | None => mret tt
  end.

(** [WriteHTTPResponse(tf, wr, req, statusCode, contentLength, contentType,
    elapsed)]. *)
Definition WriteHTTPResponse (tf : F) (req : option httpreq.Request)
    (statusCode contentLength : Z) (contentType : string)
    (elapsed : time.Duration) : State io.Writer unit :=
  (let ip := GetRemoteAddr req in
   when (bool_decide (0 < String.length ip))
     (io.WriteString ip;;
      io.WriteString Space));;
  r ← deref req;
  io.WriteString (Colorize tf (httpreq.Method r) ansi.ColorBlue);;
  io.WriteString Space;;
  u ← deref (httpreq.URL r);
  io.WriteString (url.Text u);;
  io.WriteString Space;;
  io.WriteString (ColorizeStatusCodeWithFormatter tf statusCode);;
  io.WriteString Space;;
  io.WriteString (time.Duration_String elapsed);;
  when (bool_decide (0 < String.length contentType))
    (io.WriteString Space;;
     io.WriteString contentType);;
  io.WriteString Space;;
  io.WriteString (FileSize contentLength).

End write_helpers.

(** ** The audit event *)

(** A [*AuditEvent]: nil, or the address of an event in the store. *)
Abbreviation AuditEventPtr := (option positive).

Section audit_event.

(** What an [*EventMeta] points to; the declaration of [EventMeta] is not
    among the sources. *)
Context {Meta : Type}.

(** The struct [AuditEvent].  The embedded [*EventMeta] and the map [Extra]
    may be nil. *)
Record AuditEvent : Type := {
  EventMeta : option Meta;
  Context : string;
  Principal : string;
  Verb : string;
  Noun : string;
  Subject : string;
  Property : string;
  RemoteAddress : string;
  UserAgent : string;
  Extra : option (gmap string string)
}.

(** The events that pointers refer to. *)
Abbreviation Heap := (gmap positive AuditEvent).

(** Reading [*e]; a nil pointer panics. *)
Definition load (e : AuditEventPtr) : State Heap AuditEvent :=
  λ h, match e ≫= (h !!.) with
       | Some ev => Some (ev, h)
       | None => None
       end.

(** Writing [*e = ev]. *)
Definition store (e : AuditEventPtr) (ev : AuditEvent) : State Heap unit :=
  λ h, match e with
       | Some l => Some (tt, <[l := ev]> h)
       | None => None
       end.

(** [e.field = value]: the event at [e] with one field assigned. *)
Definition assign (e : AuditEventPtr) (field : AuditEvent → AuditEvent)
    : State Heap unit :=
  ev ← load e;
  store e (field ev).

Definition set_Context (v : string) (ev : AuditEvent) : AuditEvent :=
  {| EventMeta := EventMeta ev; Context := v; Principal := Principal ev;
     Verb := Verb ev; Noun := Noun ev; Subject := Subject ev;
     Property := Property ev; RemoteAddress := RemoteAddress ev;
     UserAgent := UserAgent ev; Extra := Extra ev |}.

Definition set_Principal (v : string) (ev : AuditEvent) : AuditEvent :=
  {| EventMeta := EventMeta ev; Context := Context ev; Principal := v;
     Verb := Verb ev; Noun := Noun ev; Subject := Subject ev;
     Property := Property ev; RemoteAddress := RemoteAddress ev;
     UserAgent := UserAgent ev; Extra := Extra ev |}.

Definition set_Verb (v : string) (ev : AuditEvent) : AuditEvent :=
  {| EventMeta := EventMeta ev; Context := Context ev;
     Principal := Principal ev; Verb := v; Noun := Noun ev;
     Subject := Subject ev; Property := Property ev;
     RemoteAddress := RemoteAddress ev; UserAgent := UserAgent ev;
     Extra := Extra ev |}.

Definition set_Noun (v : string) (ev : AuditEvent) : AuditEvent :=
  {| EventMeta := EventMeta ev; Context := Context ev;
     Principal := Principal ev; Verb := Verb ev; Noun := v;
     Subject := Subject ev; Property := Property ev;
     RemoteAddress := RemoteAddress ev; UserAgent := UserAgent ev;
     Extra := Extra ev |}.

Definition set_Subject (v : string) (ev : AuditEvent) : AuditEvent :=
  {| EventMeta := EventMeta ev; Context := Context ev;
     Principal := Principal ev; Verb := Verb ev; Noun := Noun ev;
     Subject := v; Property := Property ev;
     RemoteAddress := RemoteAddress ev; UserAgent := UserAgent ev;
     Extra := Extra ev |}.

Definition set_Property (v : string) (ev : AuditEvent) : AuditEvent :=
  {| EventMeta := EventMeta ev; Context := Context ev;
     Principal := Principal ev; Verb := Verb ev; Noun := Noun ev;
     Subject := Subject ev; Property := v;
     RemoteAddress := RemoteAddress ev; UserAgent := UserAgent ev;
     Extra := Extra ev |}.

Definition set_RemoteAddress (v : string) (ev : AuditEvent) : AuditEvent :=
  {| EventMeta := EventMeta ev; Context := Context ev;
     Principal := Principal ev; Verb := Verb ev; Noun := Noun ev;
     Subject := Subject ev; Property := Property ev; RemoteAddress := v;
     UserAgent := UserAgent ev; Extra := Extra ev |}.

Definition set_UserAgent (v : string) (ev : AuditEvent) : AuditEvent :=
  {| EventMeta := EventMeta ev; Context := Context ev;
     Principal := Principal ev; Verb := Verb ev; Noun := Noun ev;
     Subject := Subject ev; Property := Property ev;
     RemoteAddress := RemoteAddress ev; UserAgent := v; Extra := Extra ev |}.

Definition set_Extra (v : option (gmap string string)) (ev : AuditEvent)
    : AuditEvent :=
  {| EventMeta := EventMeta ev; Context := Context ev;
     Principal := Principal ev; Verb := Verb ev; Noun := Noun ev;
     Subject := Subject ev; Property := Property ev;
     RemoteAddress := RemoteAddress ev; UserAgent := UserAgent ev;
     Extra := v |}.

(** [WithContext] sets a field. *)
Definition WithContext (e : AuditEventPtr) (context : string)
    : State Heap AuditEventPtr :=
  assign e (set_Context context);;
  mret e.

(** [WithPrincipal] sets a field. *)
Definition WithPrincipal (e : AuditEventPtr) (principal : string)
    : State Heap AuditEventPtr :=
  assign e (set_Principal principal);;
  mret e.

(** [WithVerb] sets a field. *)
Definition WithVerb (e : AuditEventPtr) (verb : string)
    : State Heap AuditEventPtr :=
  assign e (set_Verb verb);;
  mret e.

(** [WithNoun] sets a field. *)
Definition WithNoun (e : AuditEventPtr) (noun : string)
    : State Heap AuditEventPtr :=
  assign e (set_Noun noun);;
  mret e.

(** [WithSubject] sets a field. *)
Definition WithSubject (e : AuditEventPtr) (subject : string)
    : State Heap AuditEventPtr :=
  assign e (set_Subject subject);;
  mret e.

(** [WithProperty] sets a field. *)
Definition WithProperty (e : AuditEventPtr) (property : string)
    : State Heap AuditEventPtr :=
  assign e (set_Property property);;
  mret e.

(** [WithRemoteAddress] sets the remote address. *)
Definition WithRemoteAddress (e : AuditEventPtr) (remoteAddr : string)
    : State Heap AuditEventPtr :=
  assign e (set_RemoteAddress remoteAddr);;
  mret e.

(** [WithUserAgent] sets the user agent. *)
Definition WithUserAgent (e : AuditEventPtr) (userAgent : string)
    : State Heap AuditEventPtr :=
  assign e (set_UserAgent userAgent);;
  mret e.

(** [WithExtra] sets the extra info. *)
Definition WithExtra (e : AuditEventPtr) (extra : option (gmap string string))
    : State Heap AuditEventPtr :=
  assign e (set_Extra extra);;
  mret e.

(** [len(m)] and [m[key]] for a map that may be nil. *)
Definition len (m : option (gmap string string)) : nat :=
  from_option size 0%nat m.

Definition at_key (m : option (gmap string string)) (key : string) : string :=
  from_option (λ m, gomap.index m key) "" m.

(** [WriteText] implements [TextWritable]; [range] is the order in which
    [for key, value := range e.Extra] yields the keys. *)
Definition WriteText {F : Type} `{!TextFormatter F}
    (e : AuditEvent) (formatter : F) (range : list string)
    : State io.Writer unit :=
  when (bool_decide (0 < String.length (Context e)))
    (io.WriteString (Colorize formatter "Context:" ansi.ColorGray);;
     io.WriteString (Context e);;
     io.WriteString Space);;
  when (bool_decide (0 < String.length (Principal e)))
    (io.WriteString (Colorize formatter "Principal:" ansi.ColorGray);;
     io.WriteString (Principal e);;
     io.WriteString Space);;
  when (bool_decide (0 < String.length (Verb e)))
    (io.WriteString (Colorize formatter "Verb:" ansi.ColorGray);;
     io.WriteString (Verb e);;
     io.WriteString Space);;
  when (bool_decide (0 < String.length (Noun e)))
    (io.WriteString (Colorize formatter "Noun:" ansi.ColorGray);;
     io.WriteString (Noun e);;
     io.WriteString Space);;
  when (bool_decide (0 < String.length (Subject e)))
    (io.WriteString (Colorize formatter "Subject:" ansi.ColorGray);;
     io.WriteString (Subject e);;
     io.WriteString Space);;
  when (bool_decide (0 < String.length (Property e)))
    (io.WriteString (Colorize formatter "Property:" ansi.ColorGray);;
     io.WriteString (Property e);;
     io.WriteString Space);;
  when (bool_decide (0 < String.length (RemoteAddress e)))
    (io.WriteString (Colorize formatter "Remote Addr:" ansi.ColorGray);;
     io.WriteString (RemoteAddress e);;
     io.WriteString Space);;
  when (bool_decide (0 < String.length (UserAgent e)))
    (io.WriteString (Colorize formatter "UA:" ansi.ColorGray);;
     io.WriteString (UserAgent e);;
     io.WriteString Space);;
  when (bool_decide (0 < len (Extra e)))
    (let values :=
       foldl (λ values key,
                values ++ [fmt.Sprintf "%s%s"
                             [Colorize formatter (key +:+ ":") ansi.ColorGray;
                              at_key (Extra e) key]])
             [] range in
     io.WriteString (strings.Join values " ")).

End audit_event.

Arguments AuditEvent : clear implicits.

(** ** The typed listener *)

Section listener.

(** [context.Context], the events of the other concrete types, and whatever
    a listener acts on. *)
Context {Ctx OtherEvent World : Type}.

(** A value of the interface [Event], by its concrete type: the nil
    interface, a [*AuditEvent], or a value of another type. *)
Inductive Event : Type :=
| EventNil
| EventAudit (e : AuditEventPtr)
| EventOther (o : OtherEvent).

(** The type [Listener], [func(context.Context, Event)]. *)
Definition Listener : Type := Ctx → Event → State World unit.

(** [NewAuditEventListener] returns a new audit event listener. *)
Definition NewAuditEventListener
    (listener : Ctx → AuditEventPtr → State World unit) : Listener :=
  λ ctx e,
    match e with
    | EventAudit typed => listener ctx typed
    | _ => mret tt
    end.

End listener.

Arguments Event : clear implicits.
Arguments Listener : clear implicits.

(** A callback that only records the arguments of each call it receives. *)
Definition record_call {Ctx : Type} (ctx : Ctx) (e : AuditEventPtr)
    : State (list (Ctx * AuditEventPtr)) unit :=
  λ calls, Some (tt, calls ++ [(ctx, e)]).

(** ** JSON

    A JSON text is modelled by the document it denotes: [json.Marshal] yields
    the document whose text Go writes, and [json.Unmarshal] reads a document
    into a generic map.  Escapes and white space, which a decoder undoes, are
    not modelled; the replacement of bytes that are not UTF-8, which it
    cannot undo, is. *)

Module utf8.

Definition between (lo hi : N) (c : ascii) : bool :=
  ((lo <=? N_of_ascii c) && (N_of_ascii c <=? hi))%N.

(** The width of the UTF-8 encoding that starts [s], following
    [utf8.DecodeRuneInString]; [None] where it reports [RuneError] with
    width 1 (or [s] is empty). *)
Definition rune_size (s : string) : option nat :=
  match s with
  | EmptyString => None
  | String c0 s1 =>
      let b0 := N_of_ascii c0 in
      if (b0 <? 0x80)%N then Some 1%nat
      else if between 0xC2 0xDF c0 then
        match s1 with
        | String c1 _ => if between 0x80 0xBF c1 then Some 2%nat else None
        | _ => None
        end
      else if between 0xE0 0xEF c0 then
        match s1 with
        | String c1 (String c2 _) =>
            let lo := if (b0 =? 0xE0)%N then 0xA0%N else 0x80%N in
            let hi := if (b0 =? 0xED)%N then 0x9F%N else 0xBF%N in
            if between lo hi c1 && between 0x80 0xBF c2
            then Some 3%nat else None
        | _ => None
        end
      else if between 0xF0 0xF4 c0 then
        match s1 with
        | String c1 (String c2 (String c3 _)) =>
            let lo := if (b0 =? 0xF0)%N then 0x90%N else 0x80%N in
            let hi := if (b0 =? 0xF4)%N then 0x8F%N else 0xBF%N in
            if between lo hi c1 && between 0x80 0xBF c2 && between 0x80 0xBF c3
            then Some 4%nat else None
        | _ => None
        end
      else None
  end.

(** [pending] bytes of an encoding already accepted are still to be read. *)
Fixpoint valid_from (pending : nat) (s : string) : bool :=
  match s with
  | EmptyString => true
  | String _ s' =>
      match pending with
      | S n => valid_from n s'
      | O => match rune_size s with
             | Some (S n) => valid_from n s'
             | _ => false
             end
      end
  end.

(** [utf8.ValidString(s)]. *)
Definition ValidString (s : string) : bool := valid_from 0 s.

(** Every byte of [s] is below 0x80. *)
Fixpoint ascii_only (s : string) : bool :=
  match s with
  | EmptyString => true
  | String c s' => (N_of_ascii c <? 0x80)%N && ascii_only s'
  end.

(** The encoding of U+FFFD, the replacement character. *)
Definition RuneError : string := String "239" (String "191" (String "189" "")).

End utf8.

Module json.

(** A JSON document. *)
#[warnings="-register-all"]
Inductive Value : Type :=
| Null
| Boolean (b : bool)
| Number (literal : string)
| Str (s : string)
| Array (elems : list Value)
| Object (members : list (string * Value)).

(** The string a decoder reads back from what the encoder writes for [s]:
    each well-formed encoding is kept, each other byte becomes U+FFFD.
    [pending] bytes of an encoding already accepted are still to be copied. *)
Fixpoint coerce_from (pending : nat) (s : string) : string :=
  match s with
  | EmptyString => ""
  | String c s' =>
      match pending with
      | S n => String c (coerce_from n s')
      | O => match utf8.rune_size s with
             | Some (S n) => String c (coerce_from n s')
             | _ => utf8.RuneError +:+ coerce_from 0 s'
             end
      end
  end.

Definition coerce (s : string) : string := coerce_from 0 s.

(** A value of type [interface{}] in a decomposed event: a string, a
    [map[string]string] that may be nil, or a value of another type, given by
    the document [json.Marshal] makes of it, if any. *)
Inductive Any : Type :=
| AnyString (s : string)
| AnyStringMap (m : option (gmap string string))
| AnyOther (encoded : option Value).

(** The encoding of one value; a nil map is [null], and the keys of a map are
    written in increasing order. *)
Definition marshal_any (v : Any) : option Value :=
  match v with
  | AnyString s => Some (Str (coerce s))
  | AnyStringMap None => Some Null
  | AnyStringMap (Some m) =>
      Some (Object ((λ key, (coerce key, Str (coerce (gomap.index m key))))
                      <$> gomap.sorted_keys m))
  | AnyOther encoded => encoded
  end.

(** [json.Marshal] on a [map[string]interface{}]; [None] is an error. *)
Definition Marshal (m : gmap string Any) : option Value :=
  Object <$>
    mapM (λ key, v ← m !! key; j ← marshal_any v; Some (coerce key, j))
         (gomap.sorted_keys m).

(** The decoder stores each member of an object under its name, a later
    member replacing an earlier one of that name. *)
Definition store (acc : gmap string Value) (members : list (string * Value))
    : gmap string Value :=
  foldl (λ m kv, <[kv.1 := kv.2]> m) acc members.

(** [json.Unmarshal] into a [map[string]interface{}]; [null] leaves the map
    empty, and no other document is a map. *)
Definition Unmarshal (doc : Value) : option (gmap string Value) :=
  match doc with
  | Object members => Some (store ∅ members)
  | Null => Some ∅
  | _ => None
  end.

End json.

Section marshal.

Context {Meta : Type}.

(** [EventMeta.Decompose], which is not among the sources: the map an
    [*EventMeta] decomposes to, or a panic. *)
Variable Decompose : option Meta → option (gmap string json.Any).

(** Modelled from the spec: [MergeDecomposed], which is not among the
    sources, merges the decomposed maps into one; where two maps hold the
    same key, the later, more specific one decides. *)
Definition MergeDecomposed (sets : list (gmap string json.Any))
    : gmap string json.Any :=
  foldl (λ output set, set ∪ output) ∅ sets.

(** [MarshalJSON] implements [json.Marshaler]; [None] when no JSON comes
    out. *)
Definition MarshalJSON (e : AuditEvent Meta) : option json.Value :=
  meta ← Decompose (EventMeta e);
  json.Marshal (MergeDecomposed [meta;
    {[ "context" := json.AnyString (Context e);
       "principal" := json.AnyString (Principal e);
       "verb" := json.AnyString (Verb e);
       "noun" := json.AnyString (Noun e);
       "subject" := json.AnyString (Subject e);
       "property" := json.AnyString (Property e);
       "remoteAddr" := json.AnyString (RemoteAddress e);
       "ua" := json.AnyString (UserAgent e);
       "extra" := json.AnyStringMap (Extra e) ]}]).

End marshal.

(** The keys [MarshalJSON] gives to the fields of the event. *)
Definition audit_keys : list string :=
  ["context"; "principal"; "verb"; "noun"; "subject"; "property";
   "remoteAddr"; "ua"; "extra"].

(** ** Definitions the statements use *)

(** Modelled from the spec: the text formatter, whose declaration is not
    among the sources.  With colour output disabled [Colorize] returns the
    text unchanged; with colour enabled it wraps the text in the escape
    sequence of the tag and a reset sequence. *)
Record TextOutputFormatter : Type := {
  NoColor : bool;
  escape : ansi.Color → string;
  reset : string
}.

#[global] Instance TextOutputFormatter_Colorize
    : TextFormatter TextOutputFormatter :=
  λ tf text color,
    if NoColor tf then text else escape tf color +:+ text +:+ reset tf.

(** A formatter with colour output disabled. *)
Definition color_disabled {F : Type} `{!TextFormatter F} (tf : F) : Prop :=
  ∀ text color, Colorize tf text color = text.

(** The text [WriteText] gives to one field: nothing when the value is
    empty, else the coloured label, the value and a space. *)
Definition field_text {F : Type} `{!TextFormatter F}
    (formatter : F) (label value : string) : string :=
  if decide (value = "") then ""
  else Colorize formatter label ansi.ColorGray +:+ value +:+ " ".

(** The text [WriteText] gives to the extras, in the order they are
    visited. *)
Definition extra_text {F : Type} `{!TextFormatter F}
    (formatter : F) (extra : option (gmap string string))
    (range : list string) : string :=
  strings.Join
    ((λ key, Colorize formatter (key +:+ ":") ansi.ColorGray +:+
             at_key extra key) <$> range) " ".

(** Decoding recovers the fields of [e] from the object [obj]: each of the
    eight keys holds the string of its field, and the key ["extra"] holds the
    entries of the extras. *)
Definition recovers_fields {Meta : Type} (e : AuditEvent Meta)
    (obj : gmap string json.Value) : Prop :=
  obj !! "context" = Some (json.Str (Context e)) ∧
  obj !! "principal" = Some (json.Str (Principal e)) ∧
  obj !! "verb" = Some (json.Str (Verb e)) ∧
  obj !! "noun" = Some (json.Str (Noun e)) ∧
  obj !! "subject" = Some (json.Str (Subject e)) ∧
  obj !! "property" = Some (json.Str (Property e)) ∧
  obj !! "remoteAddr" = Some (json.Str (RemoteAddress e)) ∧
  obj !! "ua" = Some (json.Str (UserAgent e)) ∧
  ∃ extra, obj !! "extra" = Some extra ∧
           json.Unmarshal extra = Some (json.Str <$> default ∅ (Extra e)).

(** The strings of the event are UTF-8: its eight fields, and the keys and
    values of its extras. *)
Definition fields_utf8 {Meta : Type} (e : AuditEvent Meta) : Prop :=
  utf8.ValidString (Context e) = true ∧
  utf8.ValidString (Principal e) = true ∧
  utf8.ValidString (Verb e) = true ∧
  utf8.ValidString (Noun e) = true ∧
  utf8.ValidString (Subject e) = true ∧
  utf8.ValidString (Property e) = true ∧
  utf8.ValidString (RemoteAddress e) = true ∧
  utf8.ValidString (UserAgent e) = true ∧
  ∀ key value, default ∅ (Extra e) !! key = Some value →
               utf8.ValidString key = true ∧ utf8.ValidString value = true.

(** How a key of the map and the member written for it are related. *)
Definition member_of (m : gmap string json.Any) (key : string)
    (member : string * json.Value) : Prop :=
  ∃ v j, m !! key = Some v ∧ json.marshal_any v = Some j ∧
         member = (json.coerce key, j).

(** The map of its own fields that [MarshalJSON] merges into the
    decomposition of the [EventMeta]. *)
Definition audit_fields {Meta : Type} (e : AuditEvent Meta)
    : gmap string json.Any :=
  {[ "context" := json.AnyString (Context e);
     "principal" := json.AnyString (Principal e);
     "verb" := json.AnyString (Verb e);
     "noun" := json.AnyString (Noun e);
     "subject" := json.AnyString (Subject e);
     "property" := json.AnyString (Property e);
     "remoteAddr" := json.AnyString (RemoteAddress e);
     "ua" := json.AnyString (UserAgent e);
     "extra" := json.AnyStringMap (Extra e) ]}.

(** ** The constructor, and the mutators as calls *)

Section constructor.

Context {Meta : Type}.

(** [NewAuditEvent] returns a new audit event.  [meta] is the [*EventMeta]
    that [NewEventMeta(Audit, options...)], which is not among the sources,
    returns; the event is allocated at an address that is not in use, and the
    fields the literal does not name have their zero value. *)
Definition NewAuditEvent (meta : option Meta) (principal verb : string)
    : State (gmap positive (AuditEvent Meta)) AuditEventPtr :=
  λ h, let l := fresh (dom h) in
       Some (Some l,
             <[l := {| EventMeta := meta; Context := "";
                       Principal := principal; Verb := verb; Noun := "";
                       Subject := ""; Property := ""; RemoteAddress := "";
                       UserAgent := ""; Extra := None |}]> h).

(** One call of a mutator, with its argument. *)
Inductive Mutation : Type :=
| CallWithContext (context : string)
| CallWithPrincipal (principal : string)
| CallWithVerb (verb : string)
| CallWithNoun (noun : string)
| CallWithSubject (subject : string)
| CallWithProperty (property : string)
| CallWithRemoteAddress (remoteAddr : string)
| CallWithUserAgent (userAgent : string)
| CallWithExtra (extra : option (gmap string string)).

(** The call [m] on the receiver [e]. *)
Definition call (m : Mutation) (e : AuditEventPtr)
    : State (gmap positive (AuditEvent Meta)) AuditEventPtr :=
  match m with
  | CallWithContext context => WithContext e context
  | CallWithPrincipal principal => WithPrincipal e principal
  | CallWithVerb verb => WithVerb e verb
  | CallWithNoun noun => WithNoun e noun
  | CallWithSubject subject => WithSubject e subject
  | CallWithProperty property => WithProperty e property
  | CallWithRemoteAddress remoteAddr => WithRemoteAddress e remoteAddr
  | CallWithUserAgent userAgent => WithUserAgent e userAgent
  | CallWithExtra extra => WithExtra e extra
  end.

End constructor.

(** The field a mutator assigns, by its position in the struct. *)
Definition field_index (m : Mutation) : nat :=
  match m with
  | CallWithContext _ => 1
  | CallWithPrincipal _ => 2
  | CallWithVerb _ => 3
  | CallWithNoun _ => 4
  | CallWithSubject _ => 5
  | CallWithProperty _ => 6
  | CallWithRemoteAddress _ => 7
  | CallWithUserAgent _ => 8
  | CallWithExtra _ => 9
  end.

(** Calling a listener on the events of a list, one after the other. *)
Definition deliver {Ctx OtherEvent World : Type}
    (listener : Listener Ctx OtherEvent World) (ctx : Ctx)
    (events : list (Event OtherEvent)) : State World unit :=
  foldr (λ e rest, listener ctx e;; rest) (mret tt) events.

(** The audit events of a list, each with the context of its delivery. *)
Definition audit_calls {Ctx OtherEvent : Type} (ctx : Ctx)
    (events : list (Event OtherEvent)) : list (Ctx * AuditEventPtr) :=
  omap (λ e, match e with
             | EventAudit typed => Some (ctx, typed)
             | _ => None
             end) events.

(** * Properties *)

(** ** Strings, loops and sorting *)

Lemma app_empty_r (s : string) : s +:+ "" = s.
Proof.
  induction s as [|c s IH]; [done|].
  change (String c s +:+ "") with (String c (s +:+ "")). by rewrite IH.
Qed.

Lemma app_assoc_string (s t u : string) : (s +:+ t) +:+ u = s +:+ t +:+ u.
Proof.
  induction s as [|c s IH]; [done|].
  change (String c (s +:+ t) +:+ u = String c (s +:+ t +:+ u)).
  change (String c ((s +:+ t) +:+ u) = String c (s +:+ t +:+ u)).
  by rewrite IH.
Qed.

Lemma Sprintf_colon (a b : string) :
  fmt.Sprintf "%s:%s" [a; b] = a +:+ ":" +:+ b.
Proof. cbn [fmt.Sprintf]. by rewrite app_empty_r. Qed.

Lemma Sprintf_equals (a b : string) :
  fmt.Sprintf "%s=%s" [a; b] = a +:+ "=" +:+ b.
Proof. cbn [fmt.Sprintf]. by rewrite app_empty_r. Qed.

Lemma Sprintf_pair (a b : string) : fmt.Sprintf "%s%s" [a; b] = a +:+ b.
Proof. cbn [fmt.Sprintf]. by rewrite app_empty_r. Qed.

(** The loop [for _, x := range l { acc = append(acc, f(x)) }]. *)
Lemma foldl_append {A B : Type} (f : A → B) (l : list A) (acc : list B) :
  foldl (λ acc x, acc ++ [f x]) acc l = acc ++ (f <$> l).
Proof.
  revert acc. induction l as [|x l IH]; intros acc; simpl.
  - by rewrite app_nil_r.
  - by rewrite IH, <-app_assoc.
Qed.

Lemma foldl_append_id {A : Type} (l acc : list A) :
  foldl (λ acc x, acc ++ [x]) acc l = acc ++ l.
Proof. by rewrite (foldl_append id), list_fmap_id. Qed.

Lemma sort_Strings_Permutation (l : list string) : sort.Strings l ≡ₚ l.
Proof. apply merge_sort_Permutation. Qed.

Lemma sort_Strings_Sorted (l : list string) :
  StronglySorted String.le (sort.Strings l).
Proof. apply StronglySorted_merge_sort; apply _. Qed.

(** Sorting forgets the order of its input. *)
Lemma sort_Strings_order (l1 l2 : list string) :
  l1 ≡ₚ l2 → sort.Strings l1 = sort.Strings l2.
Proof.
  intros Hperm. apply (StronglySorted_unique String.le).
  - apply sort_Strings_Sorted.
  - apply sort_Strings_Sorted.
  - by rewrite !sort_Strings_Permutation.
Qed.

Lemma StronglySorted_strict (l : list string) :
  NoDup l → StronglySorted String.le l → StronglySorted sort.Less l.
Proof.
  induction 2 as [|x l Hsorted IH Hall]; [constructor|].
  apply NoDup_cons in H as [Hx Hl]. constructor; [by apply IH|].
  apply Forall_forall. intros y Hy. split.
  - by eapply Forall_forall in Hall.
  - intros Hyx. apply Hx.
    assert (x = y) as ->; [|done].
    apply (anti_symm String.le); [|done]. by eapply Forall_forall in Hall.
Qed.

(** Distinct strings come out of [sort.Strings] strictly increasing. *)
Lemma sort_Strings_strict (l : list string) :
  NoDup l → StronglySorted sort.Less (sort.Strings l).
Proof.
  intros Hl. apply StronglySorted_strict; [|apply sort_Strings_Sorted].
  by rewrite sort_Strings_Permutation.
Qed.

Lemma Range_NoDup {V : Type} (m : gmap string V) (order : list string) :
  gomap.Range m order → NoDup order.
Proof. unfold gomap.Range. intros ->. apply NoDup_elements. Qed.

(** Whatever order the loop visits the keys in, sorting gives the same list. *)
Lemma sort_Range {V : Type} (m : gmap string V) (order : list string) :
  gomap.Range m order → sort.Strings order = gomap.sorted_keys m.
Proof. intros Hr. by apply sort_Strings_order. Qed.

Lemma sorted_keys_strict {V : Type} (m : gmap string V) :
  StronglySorted sort.Less (gomap.sorted_keys m).
Proof. apply sort_Strings_strict, NoDup_elements. Qed.

Lemma sorted_keys_Permutation {V : Type} (m : gmap string V) :
  gomap.sorted_keys m ≡ₚ elements (dom m).
Proof. apply sort_Strings_Permutation. Qed.

Lemma elem_of_sorted_keys {V : Type} (m : gmap string V) (key : string) :
  key ∈ gomap.sorted_keys m ↔ is_Some (m !! key).
Proof. by rewrite sorted_keys_Permutation, elem_of_elements, elem_of_dom. Qed.

(** ** Headers and labels *)

Section formatting.

Context {F : Type} `{!TextFormatter F}.

(** [FormatHeaders], its two loops read as maps. *)
Lemma FormatHeaders_eq (tf : F) (keyColor : ansi.Color) (header : http.Header)
    (range : list string) :
  FormatHeaders tf keyColor header range =
  "{ " +:+ strings.Join
             ((λ key, Colorize tf key keyColor +:+ ":" +:+ http.Get header key)
                <$> sort.Strings range) " " +:+ " }".
Proof.
  unfold FormatHeaders. rewrite foldl_append_id, app_nil_l.
  rewrite (foldl_append (λ key, fmt.Sprintf "%s:%s" [Colorize tf key keyColor; http.Get header key])), app_nil_l.
  do 3 f_equal. apply list_fmap_ext. intros _ key _. apply Sprintf_colon.
Qed.

(** [FormatLabels], its two loops read as maps. *)
Lemma FormatLabels_eq (tf : F) (keyColor : ansi.Color) (labels : Labels)
    (range : list string) :
  FormatLabels tf keyColor labels range =
  strings.Join
    ((λ key, Colorize tf key keyColor +:+ "=" +:+ gomap.index labels key)
       <$> sort.Strings range) " ".
Proof.
  unfold FormatLabels. rewrite foldl_append_id, app_nil_l.
  rewrite (foldl_append (λ key, fmt.Sprintf "%s=%s" [Colorize tf key keyColor; gomap.index labels key])), app_nil_l.
  f_equal. apply list_fmap_ext. intros _ key _. apply Sprintf_equals.
Qed.

(** C2.  Whatever order the keys of the header are visited in, [FormatHeaders]
    returns ["{ "], the fields [key:value] joined by single spaces, and
    [" }"], where the keys are those of the header in strictly increasing
    order, each coloured by the formatter, and each value is what
    [Header.Get] returns for the key; and the order in which two keys were
    inserted does not change the result. *)
Theorem FormatHeaders_keys_ascending (tf : F) (keyColor : ansi.Color)
    (header : http.Header) (range : list string) :
  gomap.Range header range →
  gomap.sorted_keys header ≡ₚ elements (dom header) ∧
  StronglySorted sort.Less (gomap.sorted_keys header) ∧
  FormatHeaders tf keyColor header range =
  "{ " +:+ strings.Join
             ((λ key, Colorize tf key keyColor +:+ ":" +:+ http.Get header key)
                <$> gomap.sorted_keys header) " " +:+ " }" ∧
  (∀ k1 k2 v1 v2 order,
     k1 ≠ k2 →
     FormatHeaders tf keyColor (<[k1 := v1]> (<[k2 := v2]> header)) order =
     FormatHeaders tf keyColor (<[k2 := v2]> (<[k1 := v1]> header)) order).
Proof.
  intros Hrange. split; [apply sorted_keys_Permutation|].
  split; [apply sorted_keys_strict|]. split.
  - by rewrite FormatHeaders_eq, (sort_Range header).
  - intros k1 k2 v1 v2 order Hne. by rewrite insert_insert_ne.
Qed.

(** C7.  Two runs of [FormatLabels] on the same labels, whatever orders the
    keys are visited in, return the same string: the fields [key=value]
    joined by single spaces, the keys being those of the labels in strictly
    increasing order and each value the one stored under its key; and the
    order in which two keys were inserted does not change the result. *)
Theorem FormatLabels_order_independent (tf : F) (keyColor : ansi.Color)
    (labels : Labels) (range1 range2 : list string) :
  gomap.Range labels range1 →
  gomap.Range labels range2 →
  FormatLabels tf keyColor labels range1 =
    FormatLabels tf keyColor labels range2 ∧
  FormatLabels tf keyColor labels range1 =
    strings.Join
      ((λ key, Colorize tf key keyColor +:+ "=" +:+ gomap.index labels key)
         <$> gomap.sorted_keys labels) " " ∧
  StronglySorted sort.Less (gomap.sorted_keys labels) ∧
  (∀ key, key ∈ gomap.sorted_keys labels ↔
          labels !! key = Some (gomap.index labels key)) ∧
  (∀ k1 k2 v1 v2 order,
     k1 ≠ k2 →
     FormatLabels tf keyColor (<[k1 := v1]> (<[k2 := v2]> labels)) order =
     FormatLabels tf keyColor (<[k2 := v2]> (<[k1 := v1]> labels)) order).
Proof.
  intros Hrange1 Hrange2. rewrite !FormatLabels_eq.
  rewrite (sort_Range labels range1), (sort_Range labels range2) by done.
  split; [done|]. split; [done|]. split; [apply sorted_keys_strict|]. split.
  - intros key. rewrite elem_of_sorted_keys. unfold gomap.index.
    destruct (labels !! key) as [value|]; simpl.
    + split; [done | by eexists].
    + split; [by intros [? ?] | done].
  - intros k1 k2 v1 v2 order Hne. by rewrite insert_insert_ne.
Qed.

(** C10.  On the empty header [FormatHeaders] returns ["{  }"], with two
    spaces between the braces, and on the empty labels [FormatLabels] returns
    the empty string. *)
Theorem Format_empty (tf : F) (keyColor : ansi.Color)
    (range_h range_l : list string) :
  gomap.Range (∅ : http.Header) range_h →
  gomap.Range (∅ : Labels) range_l →
  FormatHeaders tf keyColor ∅ range_h = "{  }" ∧
  FormatLabels tf keyColor ∅ range_l = "".
Proof.
  unfold gomap.Range. rewrite !dom_empty_L, !elements_empty.
  intros ->%Permutation_nil_r ->%Permutation_nil_r. done.
Qed.

Lemma Get_insert_first (header : http.Header) (key v : string)
    (more : list string) (k : string) :
  header !! key = Some (v :: more) →
  http.Get (<[key := [v]]> header) k = http.Get header k.
Proof.
  intros Hkey. unfold http.Get.
  destruct (decide (key = textproto.CanonicalMIMEHeaderKey k)) as [<-|Hne].
  - by rewrite lookup_insert_eq, Hkey.
  - by rewrite lookup_insert_ne.
Qed.

(** C6.  When a key of the header holds more than one value, the field
    rendered for it carries what [Header.Get] returns for that key, which is
    the first of a list of values or the empty string; the values after the
    first do not reach the output: without them the header has the same keys
    and [FormatHeaders] returns the same string. *)
Theorem FormatHeaders_first_value_only (tf : F) (keyColor : ansi.Color)
    (header : http.Header) (range : list string)
    (key v v' : string) (rest : list string) :
  gomap.Range header range →
  header !! key = Some (v :: v' :: rest) →
  (∃ before after,
     gomap.sorted_keys header = before ++ key :: after ∧
     FormatHeaders tf keyColor header range =
     "{ " +:+ strings.Join
       (((λ k, Colorize tf k keyColor +:+ ":" +:+ http.Get header k)
           <$> before) ++
        (Colorize tf key keyColor +:+ ":" +:+ http.Get header key) ::
        ((λ k, Colorize tf k keyColor +:+ ":" +:+ http.Get header k)
           <$> after)) " " +:+ " }") ∧
  http.Get header key =
    hd "" (default [] (header !! textproto.CanonicalMIMEHeaderKey key)) ∧
  gomap.Range (<[key := [v]]> header) range ∧
  FormatHeaders tf keyColor (<[key := [v]]> header) range =
    FormatHeaders tf keyColor header range.
Proof.
  intros Hrange Hkey. split; [|split; [|split]].
  - assert (key ∈ gomap.sorted_keys header) as Hin.
    { apply elem_of_sorted_keys. by rewrite Hkey. }
    apply list_elem_of_split in Hin as (before & after & Hsplit).
    exists before, after. split; [done|].
    rewrite FormatHeaders_eq, (sort_Range header) by done.
    by rewrite Hsplit, fmap_app, fmap_cons.
  - unfold http.Get.
    by destruct (header !! textproto.CanonicalMIMEHeaderKey key) as [[|??]|].
  - unfold gomap.Range in *. rewrite Hrange, dom_insert_L.
    assert (key ∈ dom header) as Hin by (apply elem_of_dom; by rewrite Hkey).
    by rewrite (subseteq_union_1_L {[key]} (dom header))
      by by apply singleton_subseteq_l.
  - rewrite !FormatHeaders_eq. do 3 f_equal.
    apply list_fmap_ext. intros _ k _. f_equal. f_equal.
    by eapply Get_insert_first.
Qed.

End formatting.

(** ** Writing to the writer *)

Lemma bind_run {S A B : Type} (c : State S A) (f : A → State S B) (s : S) :
  (c ≫= f) s = match c s with
               | Some (a, s') => f a s'
               | None => None
               end.
Proof. reflexivity. Qed.

(** Running [c;; d] when [c] ends in [s']. *)
Lemma seq_run {S B : Type} (c : State S unit) (d : State S B) (s s' : S) :
  c s = Some (tt, s') → (c;; d) s = d s'.
Proof. intros Hc. by rewrite bind_run, Hc. Qed.

(** Runs the writes of a block. *)
Ltac run_state :=
  cbv [mbind State_bind mret State_ret io.WriteString when deref panic Space].

Lemma length_pos_nonempty (s : string) :
  bool_decide (0 < String.length s) = bool_decide (s ≠ "").
Proof. destruct s; apply bool_decide_ext; simpl; split; (lia || done). Qed.

(** The remote address and its space, written only when there is one. *)
Lemma remote_addr_run (ip : string) (wr : io.Writer) :
  when (bool_decide (0 < String.length ip))
    (io.WriteString ip;; io.WriteString Space) wr =
  Some (tt, wr +:+ (if decide (ip = "") then "" else ip +:+ " ")).
Proof.
  rewrite length_pos_nonempty. destruct (decide (ip = "")) as [->|Hip].
  - run_state. simpl. by rewrite app_empty_r.
  - rewrite bool_decide_eq_true_2 by done. run_state.
    by rewrite app_assoc_string.
Qed.

Section writing.

Context {F : Type} `{!TextFormatter F}.

(** One field of [WriteText]. *)
Lemma field_run (formatter : F) (label value : string) (wr : io.Writer) :
  when (bool_decide (0 < String.length value))
    (io.WriteString (Colorize formatter label ansi.ColorGray);;
     io.WriteString value;;
     io.WriteString Space) wr =
  Some (tt, wr +:+ field_text formatter label value).
Proof.
  rewrite length_pos_nonempty. unfold field_text.
  destruct (decide (value = "")) as [->|Hvalue].
  - run_state. simpl. by rewrite app_empty_r.
  - rewrite bool_decide_eq_true_2 by done. run_state.
    by rewrite !app_assoc_string.
Qed.

(** What [WriteText] writes, for every event: the eight fields in their fixed
    order, then the extras in the order the loop visits them. *)
Lemma WriteText_eq {Meta : Type} (e : AuditEvent Meta) (formatter : F)
    (range : list string) (wr : io.Writer) :
  WriteText e formatter range wr =
  Some (tt, wr +:+ field_text formatter "Context:" (Context e)
               +:+ field_text formatter "Principal:" (Principal e)
               +:+ field_text formatter "Verb:" (Verb e)
               +:+ field_text formatter "Noun:" (Noun e)
               +:+ field_text formatter "Subject:" (Subject e)
               +:+ field_text formatter "Property:" (Property e)
               +:+ field_text formatter "Remote Addr:" (RemoteAddress e)
               +:+ field_text formatter "UA:" (UserAgent e)
               +:+ (if decide (len (Extra e) = 0)%nat then ""
                    else extra_text formatter (Extra e) range)).
Proof.
  unfold WriteText.
  do 8 (erewrite seq_run by apply field_run).
  destruct (decide (len (Extra e) = 0)%nat) as [Hlen|Hlen].
  - rewrite bool_decide_eq_false_2 by lia. run_state.
    by rewrite !app_assoc_string, app_empty_r.
  - rewrite bool_decide_eq_true_2 by lia. run_state.
    rewrite (foldl_append (λ key, fmt.Sprintf "%s%s" [Colorize formatter (key +:+ ":") ansi.ColorGray; at_key (Extra e) key])), app_nil_l.
    rewrite (list_fmap_ext _ (λ key, Colorize formatter (key +:+ ":") ansi.ColorGray +:+ at_key (Extra e) key) range)
      by (intros _ key _; apply Sprintf_pair).
    by rewrite !app_assoc_string.
Qed.

(** C1.  With colour disabled, [WriteText] on the event whose only non-empty
    fields are the principal ["alice"] and the verb ["login"], its extras nil
    or empty, appends exactly ["Principal:alice Verb:login "] to the writer;
    and for every event without extras and every formatter it writes the
    texts of the fields Context, Principal, Verb, Noun, Subject, Property,
    Remote Addr and UA in this order, each non-empty field as its label, its
    value and one space, each empty field as nothing. *)
Theorem WriteText_principal_verb {Meta : Type} (formatter : F) :
  color_disabled formatter →
  (∀ (meta : option Meta) (extra : option (gmap string string))
     (range : list string) (wr : io.Writer),
     len extra = 0%nat →
     WriteText {| EventMeta := meta; Context := ""; Principal := "alice";
                  Verb := "login"; Noun := ""; Subject := ""; Property := "";
                  RemoteAddress := ""; UserAgent := ""; Extra := extra |}
               formatter range wr =
     Some (tt, wr +:+ "Principal:alice Verb:login ")) ∧
  (∀ (e : AuditEvent Meta) (range : list string) (wr : io.Writer),
     len (Extra e) = 0%nat →
     WriteText e formatter range wr =
     Some (tt, wr +:+ field_text formatter "Context:" (Context e)
                  +:+ field_text formatter "Principal:" (Principal e)
                  +:+ field_text formatter "Verb:" (Verb e)
                  +:+ field_text formatter "Noun:" (Noun e)
                  +:+ field_text formatter "Subject:" (Subject e)
                  +:+ field_text formatter "Property:" (Property e)
                  +:+ field_text formatter "Remote Addr:" (RemoteAddress e)
                  +:+ field_text formatter "UA:" (UserAgent e)) ∧
     (∀ label value,
        field_text formatter label value =
        if decide (value = "") then "" else label +:+ value +:+ " ")).
Proof.
  intros Hplain. split.
  - intros meta extra range wr Hextra. rewrite WriteText_eq. simpl.
    rewrite decide_True by done. unfold field_text. simpl.
    rewrite !Hplain. by rewrite !app_empty_r.
  - intros e range wr Hextra. split.
    + rewrite WriteText_eq, decide_True by done. by rewrite !app_empty_r.
    + intros label value. unfold field_text. by rewrite Hplain.
Qed.

End writing.

Section http_helpers.

Context {F : Type} `{!TextFormatter F}.

Variable GetRemoteAddr : option httpreq.Request → string.
Variable ColorizeStatusCodeWithFormatter : F → Z → string.
Variable FileSize : Z → string.

(** C4.  With colour disabled, no remote address, the method ["GET"], the
    URL ["/users"], the status 200 rendered as ["200"], the length 42
    rendered as ["42B"], the content type ["application/json"] and 150
    milliseconds elapsed, [WriteHTTPResponse] appends exactly
    ["GET /users 200 150ms application/json 42B"] to the writer. *)
Theorem WriteHTTPResponse_scenario (tf : F) (req : httpreq.Request)
    (u : url.URL) (wr : io.Writer) :
  color_disabled tf →
  GetRemoteAddr (Some req) = "" →
  httpreq.Method req = "GET" →
  httpreq.URL req = Some u →
  url.Text u = "/users" →
  ColorizeStatusCodeWithFormatter tf 200 = "200" →
  FileSize 42 = "42B" →
  WriteHTTPResponse GetRemoteAddr ColorizeStatusCodeWithFormatter FileSize
    tf (Some req) 200 42 "application/json" (150 * time.Millisecond) wr =
  Some (tt, wr +:+ "GET /users 200 150ms application/json 42B").
Proof.
  intros Hplain Hip Hmethod Hurl Htext Hstatus Hsize. unfold WriteHTTPResponse.
  erewrite seq_run by apply remote_addr_run.
  run_state. rewrite Hip, Hmethod, Hurl, Htext, Hstatus, Hsize, Hplain.
  simpl.
  change (time.Duration_String (150 * time.Millisecond)) with "150ms".
  by rewrite !app_assoc_string.
Qed.

(** C9.  For a request whose URL is nil, [WriteHTTPRequest] does not panic:
    it appends the remote address and a space when there is a remote
    address, then the coloured method, and nothing for the URL. *)
Theorem WriteHTTPRequest_nil_URL (tf : F) (req : httpreq.Request)
    (wr : io.Writer) :
  httpreq.URL req = None →
  WriteHTTPRequest GetRemoteAddr tf (Some req) wr =
  Some (tt, wr +:+ (if decide (GetRemoteAddr (Some req) = "") then ""
                    else GetRemoteAddr (Some req) +:+ " ")
               +:+ Colorize tf (httpreq.Method req) ansi.ColorBlue).
Proof.
  intros Hurl. unfold WriteHTTPRequest.
  erewrite seq_run by apply remote_addr_run.
  run_state. rewrite Hurl. by rewrite app_assoc_string.
Qed.

End http_helpers.

(** ** The typed listener *)

(** C5.  The listener that [NewAuditEventListener] returns, given an event
    whose concrete type is not [*AuditEvent], returns without error and
    without effect whatever the wrapped callback is, and a callback that
    records its calls records none; given a [*AuditEvent] it does what one
    call of the wrapped callback on the same context and event does, and the
    recording callback records exactly that one call. *)
Theorem NewAuditEventListener_filters {Ctx OtherEvent World : Type}
    (listener : Ctx → AuditEventPtr → State World unit) (ctx : Ctx)
    (w : World) (calls : list (Ctx * AuditEventPtr)) :
  (∀ e : Event OtherEvent,
     (∀ typed, e ≠ EventAudit typed) →
     NewAuditEventListener listener ctx e w = Some (tt, w) ∧
     NewAuditEventListener record_call ctx e calls = Some (tt, calls)) ∧
  (∀ typed : AuditEventPtr,
     NewAuditEventListener (OtherEvent := OtherEvent) listener ctx
       (EventAudit typed) w = listener ctx typed w ∧
     NewAuditEventListener (OtherEvent := OtherEvent) record_call ctx
       (EventAudit typed) calls = Some (tt, calls ++ [(ctx, typed)])).
Proof.
  split.
  - intros e Hother. destruct e as [|typed|o]; [done| |done].
    by destruct (Hother typed).
  - done.
Qed.

(** ** The mutators *)

Section mutators.

Context {Meta : Type}.

(** An assignment through a pointer to a stored event. *)
Lemma assign_run (h : gmap positive (AuditEvent Meta)) (l : positive)
    (ev : AuditEvent Meta) (field : AuditEvent Meta → AuditEvent Meta) :
  h !! l = Some ev →
  (assign (Some l) field;; mret (Some l)) h =
  Some (Some l, <[l := field ev]> h).
Proof.
  intros Hl. cbv [assign load store mbind State_bind mret State_ret].
  simpl. by rewrite Hl.
Qed.

(** C8.  Each mutator, called on a pointer to a stored event, returns that
    same pointer and leaves the store as it was but for that event, which
    has the named field equal to the argument and every other field as
    before. *)
Theorem With_mutators_frame (h : gmap positive (AuditEvent Meta))
    (l : positive) (ev : AuditEvent Meta) :
  h !! l = Some ev →
  (∀ context, WithContext (Some l) context h =
     Some (Some l,
           <[l := {| EventMeta := EventMeta ev; Context := context;
                     Principal := Principal ev; Verb := Verb ev;
                     Noun := Noun ev; Subject := Subject ev;
                     Property := Property ev;
                     RemoteAddress := RemoteAddress ev;
                     UserAgent := UserAgent ev; Extra := Extra ev |}]> h)) ∧
  (∀ principal, WithPrincipal (Some l) principal h =
     Some (Some l,
           <[l := {| EventMeta := EventMeta ev; Context := Context ev;
                     Principal := principal; Verb := Verb ev;
                     Noun := Noun ev; Subject := Subject ev;
                     Property := Property ev;
                     RemoteAddress := RemoteAddress ev;
                     UserAgent := UserAgent ev; Extra := Extra ev |}]> h)) ∧
  (∀ verb, WithVerb (Some l) verb h =
     Some (Some l,
           <[l := {| EventMeta := EventMeta ev; Context := Context ev;
                     Principal := Principal ev; Verb := verb;
                     Noun := Noun ev; Subject := Subject ev;
                     Property := Property ev;
                     RemoteAddress := RemoteAddress ev;
                     UserAgent := UserAgent ev; Extra := Extra ev |}]> h)) ∧
  (∀ noun, WithNoun (Some l) noun h =
     Some (Some l,
           <[l := {| EventMeta := EventMeta ev; Context := Context ev;
                     Principal := Principal ev; Verb := Verb ev;
                     Noun := noun; Subject := Subject ev;
                     Property := Property ev;
                     RemoteAddress := RemoteAddress ev;
                     UserAgent := UserAgent ev; Extra := Extra ev |}]> h)) ∧
  (∀ subject, WithSubject (Some l) subject h =
     Some (Some l,
           <[l := {| EventMeta := EventMeta ev; Context := Context ev;
                     Principal := Principal ev; Verb := Verb ev;
                     Noun := Noun ev; Subject := subject;
                     Property := Property ev;
                     RemoteAddress := RemoteAddress ev;
                     UserAgent := UserAgent ev; Extra := Extra ev |}]> h)) ∧
  (∀ property, WithProperty (Some l) property h =
     Some (Some l,
           <[l := {| EventMeta := EventMeta ev; Context := Context ev;
                     Principal := Principal ev; Verb := Verb ev;
                     Noun := Noun ev; Subject := Subject ev;
                     Property := property;
                     RemoteAddress := RemoteAddress ev;
                     UserAgent := UserAgent ev; Extra := Extra ev |}]> h)) ∧
  (∀ remoteAddr, WithRemoteAddress (Some l) remoteAddr h =
     Some (Some l,
           <[l := {| EventMeta := EventMeta ev; Context := Context ev;
                     Principal := Principal ev; Verb := Verb ev;
                     Noun := Noun ev; Subject := Subject ev;
                     Property := Property ev;
                     RemoteAddress := remoteAddr;
                     UserAgent := UserAgent ev; Extra := Extra ev |}]> h)) ∧
  (∀ userAgent, WithUserAgent (Some l) userAgent h =
     Some (Some l,
           <[l := {| EventMeta := EventMeta ev; Context := Context ev;
                     Principal := Principal ev; Verb := Verb ev;
                     Noun := Noun ev; Subject := Subject ev;
                     Property := Property ev;
                     RemoteAddress := RemoteAddress ev;
                     UserAgent := userAgent; Extra := Extra ev |}]> h)) ∧
  (∀ extra, WithExtra (Some l) extra h =
     Some (Some l,
           <[l := {| EventMeta := EventMeta ev; Context := Context ev;
                     Principal := Principal ev; Verb := Verb ev;
                     Noun := Noun ev; Subject := Subject ev;
                     Property := Property ev;
                     RemoteAddress := RemoteAddress ev;
                     UserAgent := UserAgent ev; Extra := extra |}]> h)).
Proof.
  intros Hl. repeat split; intros v.
  - unfold WithContext. by rewrite (assign_run h l ev).
  - unfold WithPrincipal. by rewrite (assign_run h l ev).
  - unfold WithVerb. by rewrite (assign_run h l ev).
  - unfold WithNoun. by rewrite (assign_run h l ev).
  - unfold WithSubject. by rewrite (assign_run h l ev).
  - unfold WithProperty. by rewrite (assign_run h l ev).
  - unfold WithRemoteAddress. by rewrite (assign_run h l ev).
  - unfold WithUserAgent. by rewrite (assign_run h l ev).
  - unfold WithExtra. by rewrite (assign_run h l ev).
Qed.

End mutators.

(** ** JSON *)

Lemma coerce_from_valid (n : nat) (s : string) :
  utf8.valid_from n s = true → json.coerce_from n s = s.
Proof.
  revert n. induction s as [|c s IH]; intros n; [done|].
  destruct n as [|n]; cbn [utf8.valid_from json.coerce_from].
  - destruct (utf8.rune_size (String c s)) as [[|m]|]; [done| |done].
    intros Hv. by rewrite IH.
  - intros Hv. by rewrite IH.
Qed.

(** The encoder leaves a UTF-8 string as it is. *)
Lemma coerce_valid (s : string) :
  utf8.ValidString s = true → json.coerce s = s.
Proof. apply coerce_from_valid. Qed.

Lemma ascii_only_valid (s : string) :
  utf8.ascii_only s = true → utf8.ValidString s = true.
Proof.
  unfold utf8.ValidString. induction s as [|c s IH]; [done|].
  cbn [utf8.ascii_only utf8.valid_from]. intros [Hc Hs]%andb_true_iff.
  unfold utf8.rune_size. rewrite Hc. by apply IH.
Qed.

(** A string the encoder turns into plain ASCII was that ASCII string. *)
Lemma coerce_from_ascii (n : nat) (s t : string) :
  json.coerce_from n s = t → utf8.ascii_only t = true → s = t.
Proof.
  revert n t. induction s as [|c s IH]; intros n t; cbn [json.coerce_from].
  - by intros <-.
  - assert (∀ m, String c (json.coerce_from m s) = t →
                 utf8.ascii_only t = true → String c s = t) as Hcopy.
    { intros m <-. cbn [utf8.ascii_only]. intros [_ Hs]%andb_true_iff.
      f_equal. by eapply IH. }
    destruct n as [|n]; [|apply Hcopy].
    destruct (utf8.rune_size (String c s)) as [[|m]|];
      [by intros <- | apply Hcopy | by intros <-].
Qed.

Lemma coerce_ascii (key name : string) :
  json.coerce key = name → utf8.ascii_only name = true → key = name.
Proof. apply coerce_from_ascii. Qed.

(** Storing the members of an object one after the other. *)
Lemma store_members_dom (members : list (string * json.Value))
    (acc : gmap string json.Value) :
  dom (json.store acc members) = dom acc ∪ list_to_set members.*1.
Proof.
  unfold json.store. revert acc.
  induction members as [|[k v] members IH]; intros acc; simpl.
  - by rewrite (right_id_L ∅ (∪)).
  - rewrite IH, dom_insert_L.
    by rewrite (comm_L (∪) {[k]}), (assoc_L (∪)).
Qed.

Lemma store_members_lookup (members : list (string * json.Value))
    (acc : gmap string json.Value) (name : string) (v : json.Value) :
  (name, v) ∈ members →
  (∀ v', (name, v') ∈ members → v' = v) →
  json.store acc members !! name = Some v.
Proof.
  unfold json.store. revert acc. induction members as [|[k v0] members IH] using rev_ind;
    intros acc Hin Huniq.
  - by apply elem_of_nil in Hin.
  - rewrite foldl_app. simpl. destruct (decide (k = name)) as [->|Hne].
    + rewrite lookup_insert_eq. f_equal. apply Huniq.
      apply elem_of_app. right. constructor.
    + rewrite lookup_insert_ne by done. apply IH.
      * apply elem_of_app in Hin as [Hin|Hin]; [done|].
        apply list_elem_of_singleton in Hin. congruence.
      * intros v' Hv'. apply Huniq, elem_of_app. by left.
Qed.

Lemma Marshal_members (m : gmap string json.Any) (doc : json.Value) :
  json.Marshal m = Some doc →
  ∃ members, doc = json.Object members ∧
             Forall2 (member_of m) (gomap.sorted_keys m) members.
Proof.
  unfold json.Marshal. intros (members & Hmembers & ->)%fmap_Some.
  exists members. split; [done|]. apply mapM_Some in Hmembers.
  eapply Forall2_impl; [done|]. intros key member Hmember. simpl in Hmember.
  destruct (m !! key) as [v|] eqn:Hv; [|done]. simpl in Hmember.
  destruct (json.marshal_any v) as [j|] eqn:Hj; [|done]. simpl in Hmember.
  exists v, j. by simplify_eq.
Qed.

(** A value stored under an ASCII key is read back under that key. *)
Lemma decoded_lookup (m : gmap string json.Any)
    (members : list (string * json.Value)) (name : string)
    (v : json.Any) (j : json.Value) :
  Forall2 (member_of m) (gomap.sorted_keys m) members →
  m !! name = Some v →
  json.marshal_any v = Some j →
  utf8.ascii_only name = true →
  json.store ∅ members !! name = Some j.
Proof.
  intros Hmembers Hv Hj Hname.
  assert (∀ key j', member_of m key (name, j') → j' = j) as Huniq.
  { intros key j' (v' & j'' & Hv' & Hj' & [= Hkey ->]).
    symmetry in Hkey. apply coerce_ascii in Hkey; [|done]. congruence. }
  apply store_members_lookup.
  - assert (name ∈ gomap.sorted_keys m) as Hin.
    { apply elem_of_sorted_keys. by rewrite Hv. }
    apply list_elem_of_lookup in Hin as [i Hi].
    destruct (Forall2_lookup_l _ _ _ _ _ Hmembers Hi)
      as ([name' j'] & Hi' & (v' & j'' & Hv' & Hj' & Heq)).
    simplify_eq. rewrite (coerce_valid name) in Hi'
      by by apply ascii_only_valid.
    by eapply list_elem_of_lookup_2.
  - intros j' Hin. apply list_elem_of_lookup in Hin as [i Hi].
    destruct (Forall2_lookup_r _ _ _ _ _ Hmembers Hi) as (key & _ & Hkey).
    by eapply Huniq.
Qed.

Lemma decoded_dom (m : gmap string json.Any)
    (members : list (string * json.Value)) (key : string) :
  Forall2 (member_of m) (gomap.sorted_keys m) members →
  key ∈ dom (json.store ∅ members) ↔
  ∃ k0, k0 ∈ dom m ∧ json.coerce k0 = key.
Proof.
  intros Hmembers. rewrite store_members_dom, dom_empty_L, (left_id_L ∅ (∪)).
  rewrite elem_of_list_to_set, list_elem_of_fmap. split.
  - intros ([k j] & -> & Hin). apply list_elem_of_lookup in Hin as [i Hi].
    destruct (Forall2_lookup_r _ _ _ _ _ Hmembers Hi)
      as (k0 & Hk0 & (v' & j' & Hv' & Hj' & Heq)).
    exists k0. split; [|by simplify_eq].
    apply elem_of_dom. by rewrite Hv'.
  - intros (k0 & [v Hv]%elem_of_dom & <-).
    assert (k0 ∈ gomap.sorted_keys m) as Hin.
    { apply elem_of_sorted_keys. by rewrite Hv. }
    apply list_elem_of_lookup in Hin as [i Hi].
    destruct (Forall2_lookup_l _ _ _ _ _ Hmembers Hi)
      as ([name' j'] & Hi' & (v' & j'' & Hv' & Hj' & Heq)).
    exists (name', j'). split; [by simplify_eq|].
    by eapply list_elem_of_lookup_2.
Qed.

(** The extras come back from the document written for them. *)
Lemma extra_roundtrip (extra : option (gmap string string)) :
  (∀ key value, default ∅ extra !! key = Some value →
                utf8.ValidString key = true ∧ utf8.ValidString value = true) →
  ∃ doc, json.marshal_any (json.AnyStringMap extra) = Some doc ∧
         json.Unmarshal doc = Some (json.Str <$> default ∅ extra).
Proof.
  intros Hvalid. destruct extra as [m|]; simpl in *.
  2:{ exists json.Null. by rewrite fmap_empty. }
  eexists. split; [done|]. simpl. f_equal. apply map_eq. intros name.
  rewrite lookup_fmap. destruct (m !! name) as [value|] eqn:Hname; simpl.
  - destruct (Hvalid name value Hname) as [Hk Hv].
    assert (name ∈ gomap.sorted_keys m) as Hin.
    { apply elem_of_sorted_keys. by rewrite Hname. }
    apply store_members_lookup.
    + apply list_elem_of_fmap. exists name. split; [|done].
      unfold gomap.index. rewrite Hname. simpl.
      by rewrite !coerce_valid.
    + intros j' (key & Heq & Hkey)%list_elem_of_fmap.
      apply elem_of_sorted_keys in Hkey as [value' Hkey].
      destruct (Hvalid key value' Hkey) as [Hk' Hv'].
      unfold gomap.index in Heq. rewrite Hkey in Heq. simpl in Heq.
      rewrite !coerce_valid in Heq by done.
      injection Heq as -> ->. congruence.
  - apply not_elem_of_dom. rewrite store_members_dom.
    rewrite dom_empty_L, (left_id_L ∅ (∪)), elem_of_list_to_set.
    rewrite <-list_fmap_compose.
    intros (key & Heq & Hkey)%list_elem_of_fmap. simpl in Heq.
    apply elem_of_sorted_keys in Hkey as [value' Hkey].
    destruct (Hvalid key value' Hkey) as [Hk' Hv'].
    rewrite coerce_valid in Heq by done. congruence.
Qed.

(** ** Marshalling the audit event *)

Section marshalling.

Context {Meta : Type}.

Variable Decompose : option Meta → option (gmap string json.Any).

Lemma MarshalJSON_eq (e : AuditEvent Meta) :
  MarshalJSON Decompose e =
  meta ← Decompose (EventMeta e); json.Marshal (audit_fields e ∪ meta).
Proof.
  unfold MarshalJSON. destruct (Decompose (EventMeta e)) as [meta|]; [|done].
  simpl. unfold MergeDecomposed. simpl.
  by rewrite (right_id_L ∅ (∪)).
Qed.

Lemma audit_fields_dom (e : AuditEvent Meta) :
  dom (audit_fields e) = list_to_set audit_keys.
Proof.
  unfold audit_fields. rewrite !dom_insert_L, dom_singleton_L. simpl.
  by rewrite (right_id_L ∅ (∪)).
Qed.

(** Every field is a string or a map of strings, which [json.Marshal]
    always encodes. *)
Lemma audit_fields_encodable (e : AuditEvent Meta) (key : string)
    (v : json.Any) :
  audit_fields e !! key = Some v → is_Some (json.marshal_any v).
Proof.
  unfold audit_fields.
  repeat (rewrite lookup_insert_Some; intros [[_ <-]|[_ Hv]];
          [by eexists|revert Hv]).
  rewrite lookup_singleton_Some. intros [_ <-].
  by destruct (Extra e); eexists.
Qed.

(** A string field is read back under its key when it is UTF-8. *)
Lemma decoded_field (m : gmap string json.Any)
    (members : list (string * json.Value)) (name s : string) :
  Forall2 (member_of m) (gomap.sorted_keys m) members →
  m !! name = Some (json.AnyString s) →
  utf8.ascii_only name = true →
  utf8.ValidString s = true →
  json.store ∅ members !! name = Some (json.Str s).
Proof.
  intros Hmembers Hname Hascii Hs.
  rewrite (decoded_lookup m members name (json.AnyString s)
             (json.Str (json.coerce s))) by done.
  by rewrite coerce_valid.
Qed.

(** C3, as the code has it.  When the decomposition of the [EventMeta] exists
    and holds only values that [json.Marshal] encodes, [MarshalJSON] yields a
    document.  When the strings of the event are UTF-8, decoding that
    document recovers the fields under the keys context, principal, verb,
    noun, subject, property, remoteAddr, ua and extra, and the keys of the
    decoded object are those nine and the keys of the decomposition of the
    [EventMeta], as the encoder writes them. *)
Theorem MarshalJSON_roundtrip_utf8 (e : AuditEvent Meta) :
  (∀ meta,
     Decompose (EventMeta e) = Some meta →
     (∀ key v, meta !! key = Some v → key ∉ audit_keys →
               is_Some (json.marshal_any v)) →
     is_Some (MarshalJSON Decompose e)) ∧
  (∀ doc,
     MarshalJSON Decompose e = Some doc →
     fields_utf8 e →
     ∃ meta obj,
       Decompose (EventMeta e) = Some meta ∧
       json.Unmarshal doc = Some obj ∧
       recovers_fields e obj ∧
       ∀ key, key ∈ dom obj ↔
              ∃ k0, (k0 ∈ audit_keys ∨ k0 ∈ dom meta) ∧ json.coerce k0 = key).
Proof.
  split.
  - intros meta Hmeta Hencodable. rewrite MarshalJSON_eq, Hmeta. simpl.
    unfold json.Marshal. apply fmap_is_Some, mapM_is_Some, Forall_forall.
    intros key [v Hv]%elem_of_sorted_keys. simpl. rewrite Hv. simpl.
    assert (is_Some (json.marshal_any v)) as [j ->]; [|by eexists].
    apply lookup_union_Some_raw in Hv as [Hv|[Hnone Hv]].
    + by eapply audit_fields_encodable.
    + eapply Hencodable; [done|].
      apply not_elem_of_dom in Hnone. rewrite audit_fields_dom in Hnone.
      by rewrite elem_of_list_to_set in Hnone.
  - intros doc Hdoc Hutf8. rewrite MarshalJSON_eq in Hdoc.
    destruct (Decompose (EventMeta e)) as [meta|]; [|done]. simpl in Hdoc.
    apply Marshal_members in Hdoc as (members & -> & Hmembers).
    exists meta, (json.store ∅ members). split; [done|]. split; [done|].
    destruct Hutf8 as (H1 & H2 & H3 & H4 & H5 & H6 & H7 & H8 & Hextra).
    split.
    + repeat split;
        try (eapply decoded_field; [done| by apply lookup_union_Some_l |done..]).
      destruct (extra_roundtrip (Extra e) Hextra) as (xdoc & Hxdoc & Hback).
      exists xdoc. split; [|done].
      eapply decoded_lookup; [done| by apply lookup_union_Some_l |done..].
    + intros key. rewrite (decoded_dom _ _ _ Hmembers).
      setoid_rewrite dom_union_L. setoid_rewrite audit_fields_dom.
      setoid_rewrite elem_of_union. by setoid_rewrite elem_of_list_to_set.
Qed.

End marshalling.

(** C3, as the spec has it, fails: an event whose principal is the single
    byte 0xFF, which is not UTF-8, is marshalled, and decoding gives U+FFFD
    for the principal. *)
Lemma MarshalJSON_roundtrip_counterexample :
  let Decompose := λ _ : option unit,
    Some ({[ "flag" := json.AnyString "audit" ]} : gmap string json.Any) in
  let e := {| EventMeta := Some tt; Context := "";
              Principal := String "255" EmptyString; Verb := "login";
              Noun := ""; Subject := ""; Property := ""; RemoteAddress := "";
              UserAgent := ""; Extra := None |} in
  ¬ (∀ doc obj, MarshalJSON Decompose e = Some doc →
                json.Unmarshal doc = Some obj →
                recovers_fields e obj).
Proof.
  intros Decompose e Hclaim.
  destruct (MarshalJSON Decompose e) as [doc|] eqn:Hdoc;
    [|by vm_compute in Hdoc].
  destruct (json.Unmarshal doc) as [obj|] eqn:Hobj;
    [|vm_compute in Hdoc; by simplify_eq].
  destruct (Hclaim doc obj eq_refl Hobj) as (_ & Hprincipal & _).
  vm_compute in Hdoc. injection Hdoc as <-.
  vm_compute in Hobj. injection Hobj as <-.
  vm_compute in Hprincipal. discriminate Hprincipal.
Qed.

(** ** The theorems at concrete inputs *)

(** A colouring formatter and a header whose keys are visited out of order. *)
Lemma FormatHeaders_keys_ascending_witness :
  let tf := {| NoColor := false; escape := λ _, "<"; reset := ">" |} in
  let header : http.Header :=
    {[ "Host" := ["example.com"]; "Accept" := ["text/html"; "text/plain"] ]} in
  let range := ["Host"; "Accept"] in
  gomap.Range header range ∧
  FormatHeaders tf ansi.ColorBlue header range =
  "{ <Accept>:text/html <Host>:example.com }".
Proof.
  intros tf header range.
  assert (gomap.Range header range) as Hrange.
  { vm_compute. first [reflexivity | apply perm_swap]. }
  split; [exact Hrange|].
  destruct (FormatHeaders_keys_ascending tf ansi.ColorBlue header range Hrange)
    as (_ & _ & -> & _).
  vm_compute. reflexivity.
Defined.

(** A header whose key Accept holds two values. *)
Lemma FormatHeaders_first_value_only_witness :
  let tf := {| NoColor := true; escape := λ _, ""; reset := "" |} in
  let header : http.Header :=
    {[ "Host" := ["example.com"]; "Accept" := ["text/html"; "text/plain"] ]} in
  let range := ["Host"; "Accept"] in
  gomap.Range header range ∧
  header !! "Accept" = Some ["text/html"; "text/plain"] ∧
  FormatHeaders tf ansi.ColorBlue (<["Accept" := ["text/html"]]> header) range =
  FormatHeaders tf ansi.ColorBlue header range.
Proof.
  intros tf header range.
  assert (gomap.Range header range) as Hrange.
  { vm_compute. first [reflexivity | apply perm_swap]. }
  assert (header !! "Accept" = Some ["text/html"; "text/plain"]) as Hkey.
  { vm_compute. reflexivity. }
  split; [exact Hrange|]. split; [exact Hkey|].
  apply (FormatHeaders_first_value_only tf ansi.ColorBlue header range
           "Accept" "text/html" "text/plain" [] Hrange Hkey).
Defined.

(** Two labels, visited in both orders. *)
Lemma FormatLabels_order_independent_witness :
  let tf := {| NoColor := true; escape := λ _, ""; reset := "" |} in
  let labels : Labels := {[ "env" := "prod"; "app" := "api" ]} in
  gomap.Range labels ["env"; "app"] ∧
  gomap.Range labels ["app"; "env"] ∧
  FormatLabels tf ansi.ColorGray labels ["env"; "app"] =
  FormatLabels tf ansi.ColorGray labels ["app"; "env"].
Proof.
  intros tf labels.
  assert (gomap.Range labels ["env"; "app"]) as Hrange1.
  { vm_compute. first [reflexivity | apply perm_swap]. }
  assert (gomap.Range labels ["app"; "env"]) as Hrange2.
  { vm_compute. first [reflexivity | apply perm_swap]. }
  split; [exact Hrange1|]. split; [exact Hrange2|].
  exact (proj1 (FormatLabels_order_independent tf ansi.ColorGray labels
                  ["env"; "app"] ["app"; "env"] Hrange1 Hrange2)).
Defined.

(** The empty header and the empty labels. *)
Lemma Format_empty_witness :
  let tf := {| NoColor := true; escape := λ _, ""; reset := "" |} in
  gomap.Range (∅ : http.Header) [] ∧
  gomap.Range (∅ : Labels) [] ∧
  FormatHeaders tf ansi.ColorBlue ∅ [] = "{  }" ∧
  FormatLabels tf ansi.ColorBlue ∅ [] = "".
Proof.
  intros tf.
  assert (gomap.Range (∅ : http.Header) []) as Hh.
  { vm_compute. reflexivity. }
  assert (gomap.Range (∅ : Labels) []) as Hl.
  { vm_compute. reflexivity. }
  split; [exact Hh|]. split; [exact Hl|].
  apply (Format_empty tf ansi.ColorBlue [] [] Hh Hl).
Defined.

(** The event of alice's login, written to an empty writer. *)
Lemma WriteText_principal_verb_witness :
  let formatter := {| NoColor := true; escape := λ _, ""; reset := "" |} in
  color_disabled formatter ∧
  len None = 0%nat ∧
  WriteText {| EventMeta := Some tt; Context := ""; Principal := "alice";
               Verb := "login"; Noun := ""; Subject := ""; Property := "";
               RemoteAddress := ""; UserAgent := ""; Extra := None |}
            formatter [] "" =
  Some (tt, "Principal:alice Verb:login ").
Proof.
  intros formatter.
  assert (color_disabled formatter) as Hplain.
  { intros text color. reflexivity. }
  split; [exact Hplain|]. split; [reflexivity|].
  apply (proj1 (WriteText_principal_verb (Meta := unit) formatter Hplain)
           (Some tt) None [] "").
  reflexivity.
Defined.

(** The GET /users response, with collaborators that render the status and
    the size in decimal. *)
Lemma WriteHTTPResponse_scenario_witness :
  let tf := {| NoColor := true; escape := λ _, ""; reset := "" |} in
  let GetRemoteAddr := λ req : option httpreq.Request,
    from_option httpreq.RemoteAddr "" req in
  let ColorizeStatusCode := λ (tf : TextOutputFormatter) (statusCode : Z),
    Colorize tf (time.fmtInt "" statusCode) (ansi.ColorOther "status") in
  let FileSize := λ sizeBytes : Z, time.fmtInt "" sizeBytes +:+ "B" in
  let u := {| url.Text := "/users" |} in
  let req := {| httpreq.Method := "GET"; httpreq.URL := Some u;
                httpreq.Header := ∅; httpreq.RemoteAddr := "" |} in
  color_disabled tf ∧
  GetRemoteAddr (Some req) = "" ∧
  ColorizeStatusCode tf 200%Z = "200" ∧
  FileSize 42%Z = "42B" ∧
  WriteHTTPResponse GetRemoteAddr ColorizeStatusCode FileSize tf (Some req)
    200 42 "application/json" (150 * time.Millisecond) "" =
  Some (tt, "GET /users 200 150ms application/json 42B").
Proof.
  intros tf GetRemoteAddr ColorizeStatusCode FileSize u req.
  assert (color_disabled tf) as Hplain.
  { intros text color. reflexivity. }
  split; [exact Hplain|]. split; [reflexivity|]. split; [reflexivity|].
  split; [reflexivity|].
  apply (WriteHTTPResponse_scenario GetRemoteAddr ColorizeStatusCode FileSize
           tf req u "" Hplain); reflexivity.
Defined.

(** A request without URL that has a remote address. *)
Lemma WriteHTTPRequest_nil_URL_witness :
  let tf := {| NoColor := false; escape := λ _, "<"; reset := ">" |} in
  let GetRemoteAddr := λ req : option httpreq.Request,
    from_option httpreq.RemoteAddr "" req in
  let req := {| httpreq.Method := "GET"; httpreq.URL := None;
                httpreq.Header := ∅; httpreq.RemoteAddr := "10.0.0.1" |} in
  httpreq.URL req = None ∧
  WriteHTTPRequest GetRemoteAddr tf (Some req) "" =
  Some (tt, "10.0.0.1 <GET>").
Proof.
  intros tf GetRemoteAddr req. split; [reflexivity|].
  rewrite (WriteHTTPRequest_nil_URL GetRemoteAddr tf req "" eq_refl).
  vm_compute. reflexivity.
Defined.

(** An event of another type reaches no callback, not even one that would
    panic; an audit event is recorded once. *)
Lemma NewAuditEventListener_filters_witness :
  let e : Event nat := EventOther 7%nat in
  (∀ typed, e ≠ EventAudit typed) ∧
  NewAuditEventListener (λ (_ : unit) _, panic) tt e 0%nat = Some (tt, 0%nat) ∧
  NewAuditEventListener record_call tt e [] = Some (tt, []) ∧
  NewAuditEventListener (OtherEvent := nat) record_call tt
    (EventAudit (Some 1%positive)) [] =
  Some (tt, [(tt, Some 1%positive)]).
Proof.
  intros e.
  assert (∀ typed, e ≠ EventAudit typed) as Hother.
  { intros typed. discriminate. }
  split; [exact Hother|].
  destruct (NewAuditEventListener_filters (OtherEvent := nat)
              (λ (_ : unit) _, panic) tt 0%nat []) as [Hskip Hcall].
  destruct (Hskip e Hother) as [Hnone Hzero].
  split; [exact Hnone|]. split; [exact Hzero|].
  exact (proj2 (Hcall (Some 1%positive))).
Defined.

(** [WithVerb] on the only event of a store. *)
Lemma With_mutators_frame_witness :
  let ev : AuditEvent unit :=
    {| EventMeta := Some tt; Context := ""; Principal := "alice";
       Verb := "login"; Noun := ""; Subject := ""; Property := "";
       RemoteAddress := ""; UserAgent := ""; Extra := None |} in
  let h : gmap positive (AuditEvent unit) := {[ 1%positive := ev ]} in
  h !! 1%positive = Some ev ∧
  WithVerb (Some 1%positive) "logout" h =
  Some (Some 1%positive,
        <[1%positive := {| EventMeta := Some tt; Context := "";
                           Principal := "alice"; Verb := "logout";
                           Noun := ""; Subject := ""; Property := "";
                           RemoteAddress := ""; UserAgent := "";
                           Extra := None |}]> h).
Proof.
  intros ev h.
  assert (h !! 1%positive = Some ev) as Hl.
  { vm_compute. reflexivity. }
  split; [exact Hl|].
  destruct (With_mutators_frame h 1%positive ev Hl)
    as (_ & _ & Hverb & _).
  exact (Hverb "logout").
Defined.

(** An event with one extra, whose [EventMeta] decomposes to its flag. *)
Lemma MarshalJSON_roundtrip_utf8_witness :
  let Decompose := λ meta : option unit,
    match meta with
    | Some _ => Some ({[ "flag" := json.AnyString "audit" ]}
                        : gmap string json.Any)
    | None => None
    end in
  let e := {| EventMeta := Some tt; Context := ""; Principal := "alice";
              Verb := "login"; Noun := ""; Subject := ""; Property := "";
              RemoteAddress := ""; UserAgent := "";
              Extra := Some {[ "ip" := "10.0.0.1" ]} |} in
  fields_utf8 e ∧
  ∃ doc obj, MarshalJSON Decompose e = Some doc ∧
             json.Unmarshal doc = Some obj ∧
             recovers_fields e obj.
Proof.
  intros Decompose e.
  assert (fields_utf8 e) as Hutf8.
  { unfold fields_utf8. do 8 (split; [reflexivity|]).
    intros key value Hkv. simpl in Hkv.
    apply lookup_singleton_Some in Hkv as [<- <-]. split; reflexivity. }
  split; [exact Hutf8|].
  destruct (MarshalJSON_roundtrip_utf8 Decompose e) as [Hsome Hback].
  destruct (Hsome {[ "flag" := json.AnyString "audit" ]} eq_refl) as [doc Hdoc].
  { intros key v [<- <-]%lookup_singleton_Some _. by eexists. }
  destruct (Hback doc Hdoc Hutf8) as (meta & obj & _ & Hobj & Hfields & _).
  exists doc, obj. split; [exact Hdoc|]. split; [exact Hobj|]. exact Hfields.
Defined.

(** * Further properties *)

(** ** The request and response lines *)

Section http_lines.

Context {F : Type} `{!TextFormatter F}.

Variable GetRemoteAddr : option httpreq.Request → string.
Variable ColorizeStatusCodeWithFormatter : F → Z → string.
Variable FileSize : Z → string.

(** X1.  For a request that has a URL, [WriteHTTPRequest] appends the remote
    address and a space when there is a remote address, then the coloured
    method, one space and the text of the URL. *)
Theorem WriteHTTPRequest_with_URL (tf : F) (req : httpreq.Request)
    (u : url.URL) (wr : io.Writer) :
  httpreq.URL req = Some u →
  WriteHTTPRequest GetRemoteAddr tf (Some req) wr =
  Some (tt, wr +:+ (if decide (GetRemoteAddr (Some req) = "") then ""
                    else GetRemoteAddr (Some req) +:+ " ")
               +:+ Colorize tf (httpreq.Method req) ansi.ColorBlue
               +:+ " " +:+ url.Text u).
Proof.
  intros Hurl. unfold WriteHTTPRequest.
  erewrite seq_run by apply remote_addr_run.
  run_state. rewrite Hurl. by rewrite !app_assoc_string.
Qed.

(** X2.  [WriteHTTPRequest] panics exactly when the request is nil. *)
Theorem WriteHTTPRequest_panics_iff (tf : F) (req : option httpreq.Request)
    (wr : io.Writer) :
  WriteHTTPRequest GetRemoteAddr tf req wr = None ↔ req = None.
Proof.
  unfold WriteHTTPRequest. erewrite seq_run by apply remote_addr_run.
  destruct req as [r|]; run_state.
  - split; [|done]. by destruct (httpreq.URL r).
  - done.
Qed.

(** X3.  For a request that has a URL, [WriteHTTPResponse] appends the
    remote address when there is one, the coloured method, the URL, the
    coloured status code, the elapsed time, the content type when it is not
    empty, and the size, with one space between two neighbours. *)
Theorem WriteHTTPResponse_format (tf : F) (req : httpreq.Request)
    (u : url.URL) (statusCode contentLength : Z) (contentType : string)
    (elapsed : time.Duration) (wr : io.Writer) :
  httpreq.URL req = Some u →
  WriteHTTPResponse GetRemoteAddr ColorizeStatusCodeWithFormatter FileSize
    tf (Some req) statusCode contentLength contentType elapsed wr =
  Some (tt, wr +:+ (if decide (GetRemoteAddr (Some req) = "") then ""
                    else GetRemoteAddr (Some req) +:+ " ")
               +:+ Colorize tf (httpreq.Method req) ansi.ColorBlue
               +:+ " " +:+ url.Text u
               +:+ " " +:+ ColorizeStatusCodeWithFormatter tf statusCode
               +:+ " " +:+ time.Duration_String elapsed
               +:+ (if decide (contentType = "") then ""
                    else " " +:+ contentType)
               +:+ " " +:+ FileSize contentLength).
Proof.
  intros Hurl. unfold WriteHTTPResponse.
  erewrite seq_run by apply remote_addr_run.
  rewrite length_pos_nonempty.
  destruct (decide (contentType = "")) as [->|Htype].
  - run_state. rewrite Hurl. simpl. by rewrite !app_assoc_string.
  - rewrite bool_decide_eq_true_2 by done.
    run_state. rewrite Hurl. by rewrite !app_assoc_string.
Qed.

(** X4.  [WriteHTTPResponse] panics exactly when the request is nil or its
    URL is nil; it has no guard against a nil URL, unlike
    [WriteHTTPRequest]. *)
Theorem WriteHTTPResponse_panics_iff (tf : F) (req : option httpreq.Request)
    (statusCode contentLength : Z) (contentType : string)
    (elapsed : time.Duration) (wr : io.Writer) :
  WriteHTTPResponse GetRemoteAddr ColorizeStatusCodeWithFormatter FileSize
    tf req statusCode contentLength contentType elapsed wr = None ↔
  req = None ∨ ∃ r, req = Some r ∧ httpreq.URL r = None.
Proof.
  unfold WriteHTTPResponse. erewrite seq_run by apply remote_addr_run.
  destruct req as [r|]; [|run_state; split; [by left|done]].
  destruct (httpreq.URL r) as [u|] eqn:Hurl.
  - run_state. rewrite Hurl. split.
    + by destruct (bool_decide (0 < String.length contentType)).
    + intros [?|(r' & [= <-] & ?)]; [discriminate | congruence].
  - run_state. rewrite Hurl. split; [|done]. intros _. right. by exists r.
Qed.

(** X5.  For a request that has a URL, the response line is the request
    line followed by the status code, the elapsed time, the content type
    when it is not empty, and the size, each after one space. *)
Theorem WriteHTTPResponse_extends_request (tf : F) (req : httpreq.Request)
    (u : url.URL) (statusCode contentLength : Z) (contentType : string)
    (elapsed : time.Duration) (wr : io.Writer) :
  httpreq.URL req = Some u →
  ∃ line,
    WriteHTTPRequest GetRemoteAddr tf (Some req) wr = Some (tt, line) ∧
    WriteHTTPResponse GetRemoteAddr ColorizeStatusCodeWithFormatter FileSize
      tf (Some req) statusCode contentLength contentType elapsed wr =
    Some (tt, line +:+ " " +:+ ColorizeStatusCodeWithFormatter tf statusCode
                   +:+ " " +:+ time.Duration_String elapsed
                   +:+ (if decide (contentType = "") then ""
                        else " " +:+ contentType)
                   +:+ " " +:+ FileSize contentLength).
Proof.
  intros Hurl. eexists. split.
  - unfold WriteHTTPRequest. erewrite seq_run by apply remote_addr_run.
    run_state. by rewrite Hurl.
  - unfold WriteHTTPResponse. erewrite seq_run by apply remote_addr_run.
    rewrite length_pos_nonempty.
    destruct (decide (contentType = "")) as [->|Htype].
    + run_state. rewrite Hurl. simpl. by rewrite !app_assoc_string.
    + rewrite bool_decide_eq_true_2 by done.
      run_state. rewrite Hurl. by rewrite !app_assoc_string.
Qed.

End http_lines.

(** ** Keys that are not canonical *)

Lemma lower_to_upper (c : ascii) :
  textproto.is_lower c = true →
  textproto.is_lower (ascii_of_N (N_of_ascii c - textproto.toLower)) = false.
Proof.
  destruct c as [[] [] [] [] [] [] [] []]; vm_compute; congruence.
Qed.

Lemma upper_to_lower (c : ascii) :
  textproto.is_upper c = true →
  textproto.is_upper (ascii_of_N (N_of_ascii c + textproto.toLower)) = false.
Proof.
  destruct c as [[] [] [] [] [] [] [] []]; vm_compute; congruence.
Qed.

Lemma lower_to_upper_valid (c : ascii) :
  textproto.is_lower c = true →
  textproto.validHeaderFieldByte
    (ascii_of_N (N_of_ascii c - textproto.toLower)) = true.
Proof.
  destruct c as [[] [] [] [] [] [] [] []]; vm_compute; congruence.
Qed.

Lemma upper_to_lower_valid (c : ascii) :
  textproto.is_upper c = true →
  textproto.validHeaderFieldByte
    (ascii_of_N (N_of_ascii c + textproto.toLower)) = true.
Proof.
  destruct c as [[] [] [] [] [] [] [] []]; vm_compute; congruence.
Qed.

(** The canonicalising loop keeps token characters and changes nothing in
    what it has produced. *)
Lemma canonicalize_valid (upper : bool) (s : string) :
  textproto.all_valid s = true →
  textproto.all_valid (textproto.canonicalize upper s) = true.
Proof.
  revert upper. induction s as [|c s IH]; intros upper; [done|].
  cbn [textproto.all_valid textproto.canonicalize].
  intros [Hc Hs]%andb_true_iff. apply andb_true_iff. split; [|by apply IH].
  destruct upper; simpl.
  - destruct (textproto.is_lower c) eqn:Hl; [by apply lower_to_upper_valid|done].
  - destruct (textproto.is_upper c) eqn:Hu; [by apply upper_to_lower_valid|done].
Qed.

Lemma canonicalize_idemp (upper : bool) (s : string) :
  textproto.canonicalize upper (textproto.canonicalize upper s) =
  textproto.canonicalize upper s.
Proof.
  revert upper. induction s as [|c s IH]; intros upper; [done|].
  cbn [textproto.canonicalize].
  assert ((if upper && textproto.is_lower c
           then ascii_of_N (N_of_ascii c - textproto.toLower)
           else if negb upper && textproto.is_upper c
                then ascii_of_N (N_of_ascii c + textproto.toLower)
                else c) = c ∨
          (upper = true ∧ textproto.is_lower c = true) ∨
          (upper = false ∧ textproto.is_upper c = true)) as Hcase.
  { destruct upper; simpl.
    - destruct (textproto.is_lower c); auto.
    - destruct (textproto.is_upper c); auto. }
  destruct Hcase as [Hsame|[[-> Hl]|[-> Hu]]].
  - rewrite !Hsame. by rewrite IH.
  - simpl. rewrite Hl. rewrite (lower_to_upper c Hl). by rewrite IH.
  - simpl. rewrite Hu. rewrite (upper_to_lower c Hu). by rewrite IH.
Qed.

(** [CanonicalMIMEHeaderKey] leaves a canonical key as it is. *)
Lemma CanonicalMIMEHeaderKey_idemp (s : string) :
  textproto.CanonicalMIMEHeaderKey (textproto.CanonicalMIMEHeaderKey s) =
  textproto.CanonicalMIMEHeaderKey s.
Proof.
  unfold textproto.CanonicalMIMEHeaderKey.
  destruct (textproto.all_valid s) eqn:Hvalid.
  - by rewrite canonicalize_valid, canonicalize_idemp.
  - by rewrite Hvalid.
Qed.

Section header_keys.

Context {F : Type} `{!TextFormatter F}.

(** X6.  [FormatHeaders] reads the value of every key through [Header.Get],
    which looks under the canonical form of the key.  So for a key that is
    not in canonical form the values stored under it never reach the output:
    replacing them by any others leaves the keys and the returned string
    unchanged, and the field of that key shows the first value stored under
    its canonical form, or nothing when there is none. *)
Theorem FormatHeaders_noncanonical_key (tf : F) (keyColor : ansi.Color)
    (header : http.Header) (range : list string) (key : string)
    (values : list string) :
  gomap.Range header range →
  is_Some (header !! key) →
  textproto.CanonicalMIMEHeaderKey key ≠ key →
  gomap.Range (<[key := values]> header) range ∧
  FormatHeaders tf keyColor (<[key := values]> header) range =
    FormatHeaders tf keyColor header range ∧
  (header !! textproto.CanonicalMIMEHeaderKey key = None →
   http.Get header key = "").
Proof.
  intros Hrange Hkey Hcanon. split; [|split].
  - unfold gomap.Range in *. rewrite Hrange, dom_insert_L.
    by rewrite (subseteq_union_1_L {[key]} (dom header))
      by by apply singleton_subseteq_l, elem_of_dom.
  - rewrite !FormatHeaders_eq. do 3 f_equal.
    apply list_fmap_ext. intros _ k _. do 2 f_equal.
    unfold http.Get. rewrite lookup_insert_ne; [done|].
    intros Heq. apply Hcanon.
    by rewrite Heq, CanonicalMIMEHeaderKey_idemp.
  - intros Hnone. unfold http.Get. by rewrite Hnone.
Qed.

End header_keys.

(** A header that holds the same name twice, once not in canonical form. *)
Lemma FormatHeaders_noncanonical_key_witness :
  let tf := {| NoColor := true; escape := λ _, ""; reset := "" |} in
  let header : http.Header :=
    {[ "accept" := ["text/plain"]; "Accept" := ["text/html"] ]} in
  let range := ["accept"; "Accept"] in
  gomap.Range header range ∧
  is_Some (header !! "accept") ∧
  textproto.CanonicalMIMEHeaderKey "accept" ≠ "accept" ∧
  FormatHeaders tf ansi.ColorBlue (<["accept" := ["image/png"]]> header) range =
    FormatHeaders tf ansi.ColorBlue header range ∧
  FormatHeaders tf ansi.ColorBlue header range =
    "{ Accept:text/html accept:text/html }".
Proof.
  intros tf header range.
  assert (gomap.Range header range) as Hrange.
  { vm_compute. first [reflexivity | apply perm_swap]. }
  assert (is_Some (header !! "accept")) as Hkey.
  { vm_compute. by eexists. }
  assert (textproto.CanonicalMIMEHeaderKey "accept" ≠ "accept") as Hcanon.
  { vm_compute. discriminate. }
  split; [exact Hrange|]. split; [exact Hkey|]. split; [exact Hcanon|].
  split.
  - exact (proj1 (proj2 (FormatHeaders_noncanonical_key tf ansi.ColorBlue
                           header range "accept" ["image/png"]
                           Hrange Hkey Hcanon))).
  - vm_compute. reflexivity.
Defined.

(** ** The text of an audit event *)

Lemma app_eq_empty (s t : string) : s +:+ t = "" → s = "" ∧ t = "".
Proof. by destruct s. Qed.

Lemma app_eq_self (s t : string) : s +:+ t = s → t = "".
Proof.
  intros Heq. apply (inj (String.app s)). by rewrite app_empty_r.
Qed.

Section audit_text.

Context {F : Type} `{!TextFormatter F} {Meta : Type}.

Lemma field_text_empty (formatter : F) (label value : string) :
  field_text formatter label value = "" ↔ value = "".
Proof.
  unfold field_text. destruct (decide (value = "")) as [->|Hvalue]; [done|].
  split; [|done]. intros [_ [? _]%app_eq_empty]%app_eq_empty. done.
Qed.

(** X7.  [WriteText] appends to the writer the texts of the eight fields in
    their fixed order, then one token per extra, the coloured key with its
    colon followed by the value stored under the key, the tokens separated
    by single spaces and in the order in which the extras are visited, which
    is not sorted; what the writer held before stays in front. *)
Theorem WriteText_format (e : AuditEvent Meta) (formatter : F)
    (range : list string) (wr : io.Writer) :
  gomap.Range (default ∅ (Extra e)) range →
  WriteText e formatter range wr =
  Some (tt, wr +:+ field_text formatter "Context:" (Context e)
               +:+ field_text formatter "Principal:" (Principal e)
               +:+ field_text formatter "Verb:" (Verb e)
               +:+ field_text formatter "Noun:" (Noun e)
               +:+ field_text formatter "Subject:" (Subject e)
               +:+ field_text formatter "Property:" (Property e)
               +:+ field_text formatter "Remote Addr:" (RemoteAddress e)
               +:+ field_text formatter "UA:" (UserAgent e)
               +:+ strings.Join
                     ((λ key, Colorize formatter (key +:+ ":") ansi.ColorGray
                              +:+ default "" (default ∅ (Extra e) !! key))
                        <$> range) " ") ∧
  (∀ key, key ∈ range ↔ is_Some (default ∅ (Extra e) !! key)) ∧
  NoDup range.
Proof.
  intros Hrange. split; [|split].
  - assert ((if decide (len (Extra e) = 0%nat) then ""
             else extra_text formatter (Extra e) range) =
            strings.Join
              ((λ key, Colorize formatter (key +:+ ":") ansi.ColorGray
                       +:+ default "" (default ∅ (Extra e) !! key))
                 <$> range) " ") as Htail.
    { destruct (decide (len (Extra e) = 0%nat)) as [Hlen|Hlen].
      - assert (range = []) as ->; [|done].
        apply Permutation_nil_r. rewrite Hrange.
        destruct (Extra e) as [m|]; simpl in *.
        + apply map_size_empty_inv in Hlen as ->.
          by rewrite dom_empty_L, elements_empty.
        + by rewrite dom_empty_L, elements_empty.
      - unfold extra_text.
        apply (f_equal (λ tokens, strings.Join tokens " ")), list_fmap_ext.
        intros _ key _. f_equal. unfold at_key, gomap.index.
        by destruct (Extra e). }
    by rewrite WriteText_eq, Htail.
  - intros key. unfold gomap.Range in Hrange.
    by rewrite Hrange, elem_of_elements, elem_of_dom.
  - by eapply Range_NoDup.
Qed.

(** X8.  On an event without extras [WriteText] leaves the writer as it is
    exactly when all eight fields are empty. *)
Theorem WriteText_nothing_iff (e : AuditEvent Meta) (formatter : F)
    (range : list string) (wr : io.Writer) :
  len (Extra e) = 0%nat →
  WriteText e formatter range wr = Some (tt, wr) ↔
  Context e = "" ∧ Principal e = "" ∧ Verb e = "" ∧ Noun e = "" ∧
  Subject e = "" ∧ Property e = "" ∧ RemoteAddress e = "" ∧
  UserAgent e = "".
Proof.
  intros Hlen. rewrite WriteText_eq, decide_True by done. split.
  - intros [= Heq]. apply app_eq_self in Heq.
    repeat (apply app_eq_empty in Heq as [?%field_text_empty Heq]).
    done.
  - intros (-> & -> & -> & -> & -> & -> & -> & ->).
    unfold field_text. simpl. by rewrite app_empty_r.
Qed.

End audit_text.

(** An event with two extras, visited against the order of their keys. *)
Lemma WriteText_format_witness :
  let formatter := {| NoColor := true; escape := λ _, ""; reset := "" |} in
  let e : AuditEvent unit :=
    {| EventMeta := None; Context := ""; Principal := "alice";
       Verb := ""; Noun := ""; Subject := ""; Property := "";
       RemoteAddress := ""; UserAgent := "";
       Extra := Some {[ "b" := "2"; "a" := "1" ]} |} in
  gomap.Range (default ∅ (Extra e)) ["b"; "a"] ∧
  WriteText e formatter ["b"; "a"] "" = Some (tt, "Principal:alice b:2 a:1").
Proof.
  intros formatter e.
  assert (gomap.Range (default ∅ (Extra e)) ["b"; "a"]) as Hrange.
  { vm_compute. first [reflexivity | apply perm_swap]. }
  split; [exact Hrange|].
  rewrite (proj1 (WriteText_format e formatter ["b"; "a"] "" Hrange)).
  vm_compute. reflexivity.
Defined.

(** The zero event. *)
Lemma WriteText_nothing_iff_witness :
  let formatter := {| NoColor := false; escape := λ _, "<"; reset := ">" |} in
  let e : AuditEvent unit :=
    {| EventMeta := None; Context := ""; Principal := ""; Verb := "";
       Noun := ""; Subject := ""; Property := ""; RemoteAddress := "";
       UserAgent := ""; Extra := None |} in
  len (Extra e) = 0%nat ∧
  WriteText e formatter [] "log: " = Some (tt, "log: ").
Proof.
  intros formatter e. split; [reflexivity|].
  apply (WriteText_nothing_iff e formatter [] "log: " eq_refl).
  repeat split.
Defined.

(** ** Calls of the mutators *)

Section calls.

Context {Meta : Type}.

Lemma call_run (m : Mutation) (h : gmap positive (AuditEvent Meta))
    (l : positive) (ev : AuditEvent Meta) :
  h !! l = Some ev →
  ∃ ev', call m (Some l) h = Some (Some l, <[l := ev']> h) ∧
         EventMeta ev' = EventMeta ev.
Proof.
  intros Hl. destruct m; cbn [call];
    unfold WithContext, WithPrincipal, WithVerb, WithNoun, WithSubject,
      WithProperty, WithRemoteAddress, WithUserAgent, WithExtra;
    rewrite (assign_run h l ev) by done; by eexists.
Qed.

Lemma call_panic (m : Mutation) (e : AuditEventPtr)
    (h : gmap positive (AuditEvent Meta)) :
  e ≫= (h !!.) = None → call m e h = None.
Proof.
  intros Hnone. destruct m; cbn [call];
    unfold WithContext, WithPrincipal, WithVerb, WithNoun, WithSubject,
      WithProperty, WithRemoteAddress, WithUserAgent, WithExtra, assign;
    rewrite !bind_run; unfold load; by rewrite Hnone.
Qed.

(** X9.  A mutator panics exactly when its receiver is nil (or points to no
    event); on a receiver that points to an event it returns that
    receiver. *)
Theorem call_panics_iff (m : Mutation) (e : AuditEventPtr)
    (h : gmap positive (AuditEvent Meta)) :
  (call m e h = None ↔ e ≫= (h !!.) = None) ∧
  (∀ r h', call m e h = Some (r, h') → r = e ∧ is_Some (e ≫= (h' !!.))).
Proof.
  destruct (e ≫= (h !!.)) as [ev|] eqn:Hev.
  - destruct e as [l|]; [|done]. simpl in Hev.
    destruct (call_run m h l ev Hev) as (ev' & -> & _). split; [done|].
    intros r h' [= <- <-]. split; [done|]. simpl.
    by rewrite lookup_insert_eq.
  - rewrite (call_panic m e h Hev). done.
Qed.

(** X10.  Two calls that assign the same field, the second on the pointer
    the first returns, do what the second call alone does: a call replaces
    what an earlier call set. *)
Theorem call_same_field_last_wins (m1 m2 : Mutation) (e : AuditEventPtr)
    (h : gmap positive (AuditEvent Meta)) :
  field_index m1 = field_index m2 →
  (p ← call m1 e; call m2 p) h = call m2 e h.
Proof.
  intros Hindex. rewrite bind_run.
  destruct (e ≫= (h !!.)) as [ev|] eqn:Hev.
  - destruct e as [l|]; [|done]. simpl in Hev.
    destruct m1, m2; try discriminate Hindex; cbn [call];
      unfold WithContext, WithPrincipal, WithVerb, WithNoun, WithSubject,
        WithProperty, WithRemoteAddress, WithUserAgent, WithExtra;
      rewrite !(assign_run h l ev) by done;
      erewrite assign_run by apply lookup_insert_eq;
      rewrite insert_insert_eq; reflexivity.
  - by rewrite !(call_panic _ e h Hev).
Qed.

(** X11.  Two calls that assign different fields can be made in either
    order: the store they leave and the pointer they return are the same. *)
Theorem call_different_fields_commute (m1 m2 : Mutation) (e : AuditEventPtr)
    (h : gmap positive (AuditEvent Meta)) :
  field_index m1 ≠ field_index m2 →
  (p ← call m1 e; call m2 p) h = (p ← call m2 e; call m1 p) h.
Proof.
  intros Hindex. rewrite !bind_run.
  destruct (e ≫= (h !!.)) as [ev|] eqn:Hev.
  - destruct e as [l|]; [|done]. simpl in Hev.
    destruct m1, m2; try (by destruct Hindex); cbn [call];
      unfold WithContext, WithPrincipal, WithVerb, WithNoun, WithSubject,
        WithProperty, WithRemoteAddress, WithUserAgent, WithExtra;
      rewrite !(assign_run h l ev) by done;
      (do 2 erewrite assign_run by apply lookup_insert_eq);
      by rewrite !insert_insert_eq.
  - by rewrite !(call_panic _ e h Hev).
Qed.

(** X12.  [NewAuditEvent] returns a pointer that is not nil, to an address
    that was not in use; the event there has the given [EventMeta],
    principal and verb, every other field empty and no extras; every event
    that was in the store is still there, unchanged; and no mutator panics on
    the new pointer. *)
Theorem NewAuditEvent_fresh (meta : option Meta) (principal verb : string)
    (h : gmap positive (AuditEvent Meta)) :
  ∃ l h',
    NewAuditEvent meta principal verb h = Some (Some l, h') ∧
    h !! l = None ∧
    h' !! l = Some {| EventMeta := meta; Context := "";
                      Principal := principal; Verb := verb; Noun := "";
                      Subject := ""; Property := ""; RemoteAddress := "";
                      UserAgent := ""; Extra := None |} ∧
    (∀ l' ev, h !! l' = Some ev → h' !! l' = Some ev) ∧
    (∀ m, is_Some (call m (Some l) h')).
Proof.
  exists (fresh (dom h)), (<[fresh (dom h) := {| EventMeta := meta; Context := "";
                      Principal := principal; Verb := verb; Noun := "";
                      Subject := ""; Property := ""; RemoteAddress := "";
                      UserAgent := ""; Extra := None |}]> h).
  assert (h !! fresh (dom h) = None) as Hfresh.
  { apply not_elem_of_dom, is_fresh. }
  split; [done|]. split; [done|]. split; [by rewrite lookup_insert_eq|].
  split.
  - intros l' ev Hl'. rewrite lookup_insert_ne; [done|]. congruence.
  - intros m. edestruct (call_run m) as (ev' & -> & _);
      [apply lookup_insert_eq|]. by eexists.
Qed.

End calls.

Section new_event_text.

Context {F : Type} `{!TextFormatter F} {Meta : Type}.

(** X13.  The text of an event as [NewAuditEvent] makes it is the text of
    its principal followed by the text of its verb, whatever the formatter:
    with both non-empty, the coloured label ["Principal:"], the principal, a
    space, the coloured label ["Verb:"], the verb and a space. *)
Theorem NewAuditEvent_WriteText (meta : option Meta) (principal verb : string)
    (h : gmap positive (AuditEvent Meta)) (formatter : F)
    (range : list string) (wr : io.Writer) :
  ∃ l h' e,
    NewAuditEvent meta principal verb h = Some (Some l, h') ∧
    h' !! l = Some e ∧
    WriteText e formatter range wr =
    Some (tt, wr +:+ field_text formatter "Principal:" principal
                 +:+ field_text formatter "Verb:" verb) ∧
    (principal ≠ "" → verb ≠ "" →
     WriteText e formatter range wr =
     Some (tt, wr +:+ Colorize formatter "Principal:" ansi.ColorGray
                  +:+ principal +:+ " "
                  +:+ Colorize formatter "Verb:" ansi.ColorGray
                  +:+ verb +:+ " ")).
Proof.
  eexists _, _, _. split; [reflexivity|]. split; [apply lookup_insert_eq|].
  rewrite WriteText_eq. cbn [Context Principal Verb Noun Subject Property
                             RemoteAddress UserAgent Extra].
  change (field_text formatter "Context:" "") with "".
  change (field_text formatter "Noun:" "") with "".
  change (field_text formatter "Subject:" "") with "".
  change (field_text formatter "Property:" "") with "".
  change (field_text formatter "Remote Addr:" "") with "".
  change (field_text formatter "UA:" "") with "".
  rewrite decide_True by done. rewrite !app_empty_r.
  split; [reflexivity|].
  intros Hprincipal Hverb. unfold field_text.
  rewrite !decide_False by done. by rewrite !app_assoc_string.
Qed.

End new_event_text.

(** ** A sequence of events *)

(** X14.  When the listener that [NewAuditEventListener] returns is called
    on the events of a list one after the other, the wrapped callback is
    called once for each [*AuditEvent] of the list, in the order of the list,
    and for no other event: a recording callback records exactly those
    calls, and any callback acts as if called on those events alone. *)
Theorem deliver_audit_events {Ctx OtherEvent World : Type}
    (listener : Ctx → AuditEventPtr → State World unit) (ctx : Ctx)
    (events : list (Event OtherEvent)) (w : World)
    (calls : list (Ctx * AuditEventPtr)) :
  deliver (NewAuditEventListener record_call) ctx events calls =
    Some (tt, calls ++ audit_calls ctx events) ∧
  deliver (NewAuditEventListener listener) ctx events w =
    foldr (λ call rest, listener call.1 call.2;; rest) (mret tt)
          (audit_calls ctx events) w.
Proof.
  split.
  - revert calls. induction events as [|e events IH]; intros calls.
    + simpl. by rewrite app_nil_r.
    + cbn [deliver foldr]. rewrite bind_run.
      destruct e as [|typed|o]; simpl.
      * apply IH.
      * unfold record_call at 1. unfold deliver in IH. rewrite IH.
        by rewrite <-app_assoc.
      * apply IH.
  - revert w. induction events as [|e events IH]; intros w; [done|].
    cbn [deliver foldr]. rewrite bind_run.
    destruct e as [|typed|o]; simpl.
    + apply IH.
    + rewrite bind_run. destruct (listener ctx typed w) as [[[] w']|]; [|done].
      apply IH.
    + apply IH.
Qed.

(** ** The empty rendering, and the order of two labels *)

Lemma app_eq_suffix (s t : string) : s +:+ t = t → s = "".
Proof.
  intros Heq. assert (String.length (s +:+ t) = String.length t) as Hlen
    by by rewrite Heq.
  assert (∀ a b, String.length (a +:+ b) =
                 (String.length a + String.length b)%nat) as Happ.
  { intros a b. induction a as [|c a IH]; [done|].
    change (String c a +:+ b) with (String c (a +:+ b)). simpl.
    by rewrite IH. }
  rewrite Happ in Hlen. destruct s; [done|]. simpl in Hlen. lia.
Qed.

Lemma Join_empty (tokens : list string) :
  strings.Join tokens " " = "" → Forall (λ t, t ≠ "") tokens → tokens = [].
Proof.
  intros Hjoin Htokens. destruct Htokens as [|t tokens Ht _]; [done|].
  destruct tokens as [|t' tokens]; simpl in Hjoin; [done|].
  by apply app_eq_empty in Hjoin as [? _].
Qed.

Lemma Range_empty {V : Type} (m : gmap string V) :
  gomap.Range m [] → m = ∅.
Proof.
  unfold gomap.Range. intros Hrange. symmetry in Hrange.
  apply Permutation_nil_r, elements_empty_inv in Hrange.
  apply dom_empty_inv_L. by apply leibniz_equiv.
Qed.

Section renderings.

Context {F : Type} `{!TextFormatter F}.

Lemma Format_empty_header (tf : F) (keyColor : ansi.Color)
    (range : list string) :
  gomap.Range (∅ : http.Header) range →
  FormatHeaders tf keyColor ∅ range = "{  }".
Proof.
  intros Hrange. rewrite FormatHeaders_eq, (sort_Range (∅ : http.Header))
    by done. done.
Qed.

Lemma Format_empty_labels (tf : F) (keyColor : ansi.Color)
    (range : list string) :
  gomap.Range (∅ : Labels) range →
  FormatLabels tf keyColor ∅ range = "".
Proof.
  intros Hrange. rewrite FormatLabels_eq, (sort_Range (∅ : Labels))
    by done. done.
Qed.

(** X15.  Whatever the formatter, [FormatLabels] returns the empty string
    only for the empty labels, and [FormatHeaders] returns ["{  }"] only for
    the empty header: a field always holds its separator. *)
Theorem Format_empty_iff (tf : F) (keyColor : ansi.Color)
    (header : http.Header) (labels : Labels) (range_h range_l : list string) :
  gomap.Range header range_h →
  gomap.Range labels range_l →
  (FormatHeaders tf keyColor header range_h = "{  }" ↔ header = ∅) ∧
  (FormatLabels tf keyColor labels range_l = "" ↔ labels = ∅).
Proof.
  intros Hh Hl. split; split.
  - rewrite FormatHeaders_eq. intros Heq.
    apply (inj (String.app "{ ")) in Heq. apply app_eq_suffix in Heq.
    apply Join_empty, fmap_nil_inv in Heq.
    + assert (range_h = []) as ->; [|by apply Range_empty].
      apply Permutation_nil_r.
      by rewrite <-(sort_Strings_Permutation range_h), Heq.
    + apply Forall_fmap, Forall_forall. intros key _ Hfield. simpl in Hfield.
      by apply app_eq_empty in Hfield as [_ ?].
  - intros ->. by eapply Format_empty_header.
  - rewrite FormatLabels_eq. intros Heq.
    apply Join_empty, fmap_nil_inv in Heq.
    + assert (range_l = []) as ->; [|by apply Range_empty].
      apply Permutation_nil_r.
      by rewrite <-(sort_Strings_Permutation range_l), Heq.
    + apply Forall_fmap, Forall_forall. intros key _ Hfield. simpl in Hfield.
      by apply app_eq_empty in Hfield as [_ ?].
  - intros ->. by eapply Format_empty_labels.
Qed.

(** X16.  [FormatLabels] orders the keys byte by byte, not alphabetically:
    of two labels the one whose key is smaller in Go's order on strings
    comes first, so an upper-case key precedes a lower-case one. *)
Theorem FormatLabels_two_labels (tf : F) (keyColor : ansi.Color)
    (k1 k2 v1 v2 : string) (range : list string) :
  sort.Less k1 k2 →
  gomap.Range ({[ k1 := v1; k2 := v2 ]} : Labels) range →
  FormatLabels tf keyColor {[ k1 := v1; k2 := v2 ]} range =
  Colorize tf k1 keyColor +:+ "=" +:+ v1 +:+ " " +:+
  Colorize tf k2 keyColor +:+ "=" +:+ v2.
Proof.
  intros [Hle Hnle] Hrange.
  assert (k1 ≠ k2) as Hne by (intros ->; by apply Hnle).
  rewrite FormatLabels_eq.
  assert (sort.Strings range = [k1; k2]) as ->.
  { apply (StronglySorted_unique String.le); [apply sort_Strings_Sorted| |].
    - repeat constructor. done.
    - rewrite sort_Strings_Permutation, Hrange.
      rewrite dom_insert_L, dom_singleton_L.
      rewrite elements_union_singleton, elements_singleton; [done|].
      by apply not_elem_of_singleton. }
  simpl. unfold gomap.index.
  rewrite lookup_insert_eq, lookup_insert_ne, lookup_singleton_eq by done.
  simpl. by rewrite !app_assoc_string.
Qed.

End renderings.

(** One header and one label. *)
Lemma Format_empty_iff_witness :
  let tf := {| NoColor := true; escape := λ _, ""; reset := "" |} in
  gomap.Range (∅ : http.Header) [] ∧
  gomap.Range ({[ "env" := "" ]} : Labels) ["env"] ∧
  FormatLabels tf ansi.ColorGray {[ "env" := "" ]} ["env"] ≠ "".
Proof.
  intros tf.
  assert (gomap.Range (∅ : http.Header) []) as Hh.
  { vm_compute. reflexivity. }
  assert (gomap.Range ({[ "env" := "" ]} : Labels) ["env"]) as Hl.
  { vm_compute. reflexivity. }
  split; [exact Hh|]. split; [exact Hl|].
  intros Hempty.
  apply (proj2 (Format_empty_iff tf ansi.ColorGray ∅ {[ "env" := "" ]}
                  [] ["env"] Hh Hl)) in Hempty.
  vm_compute in Hempty. discriminate Hempty.
Defined.

(** An upper-case key and a lower-case key. *)
Lemma FormatLabels_two_labels_witness :
  let tf := {| NoColor := true; escape := λ _, ""; reset := "" |} in
  sort.Less "Zone" "app" ∧
  gomap.Range ({[ "Zone" := "eu"; "app" := "api" ]} : Labels)
    ["app"; "Zone"] ∧
  FormatLabels tf ansi.ColorGray {[ "Zone" := "eu"; "app" := "api" ]}
    ["app"; "Zone"] = "Zone=eu app=api".
Proof.
  intros tf.
  assert (sort.Less "Zone" "app") as Hless.
  { split; vm_compute; [exact I | intros []]. }
  assert (gomap.Range ({[ "Zone" := "eu"; "app" := "api" ]} : Labels)
            ["app"; "Zone"]) as Hrange.
  { vm_compute. first [reflexivity | apply perm_swap]. }
  split; [exact Hless|]. split; [exact Hrange|].
  rewrite (FormatLabels_two_labels tf ansi.ColorGray "Zone" "app" "eu" "api"
             ["app"; "Zone"] Hless Hrange).
  vm_compute. reflexivity.
Defined.

(** ** The further properties at concrete inputs *)

(** A request with URL and remote address. *)
Lemma WriteHTTPRequest_with_URL_witness :
  let tf := {| NoColor := true; escape := λ _, ""; reset := "" |} in
  let GetRemoteAddr := λ req : option httpreq.Request,
    from_option httpreq.RemoteAddr "" req in
  let u := {| url.Text := "/users" |} in
  let req := {| httpreq.Method := "GET"; httpreq.URL := Some u;
                httpreq.Header := ∅; httpreq.RemoteAddr := "10.0.0.1" |} in
  httpreq.URL req = Some u ∧
  WriteHTTPRequest GetRemoteAddr tf (Some req) "" =
  Some (tt, "10.0.0.1 GET /users").
Proof.
  intros tf GetRemoteAddr u req. split; [reflexivity|].
  rewrite (WriteHTTPRequest_with_URL GetRemoteAddr tf req u "" eq_refl).
  vm_compute. reflexivity.
Defined.

(** The nil request. *)
Lemma WriteHTTPRequest_panics_iff_witness :
  let tf := {| NoColor := true; escape := λ _, ""; reset := "" |} in
  let GetRemoteAddr := λ req : option httpreq.Request,
    from_option httpreq.RemoteAddr "" req in
  WriteHTTPRequest GetRemoteAddr tf None "" = None.
Proof.
  intros tf GetRemoteAddr.
  apply (WriteHTTPRequest_panics_iff GetRemoteAddr tf None ""). reflexivity.
Defined.

(** A response without content type: no double space is left. *)
Lemma WriteHTTPResponse_format_witness :
  let tf := {| NoColor := true; escape := λ _, ""; reset := "" |} in
  let GetRemoteAddr := λ req : option httpreq.Request,
    from_option httpreq.RemoteAddr "" req in
  let ColorizeStatusCode := λ (tf : TextOutputFormatter) (statusCode : Z),
    Colorize tf (time.fmtInt "" statusCode) (ansi.ColorOther "status") in
  let FileSize := λ sizeBytes : Z, time.fmtInt "" sizeBytes +:+ "B" in
  let u := {| url.Text := "/users" |} in
  let req := {| httpreq.Method := "GET"; httpreq.URL := Some u;
                httpreq.Header := ∅; httpreq.RemoteAddr := "10.0.0.1" |} in
  httpreq.URL req = Some u ∧
  WriteHTTPResponse GetRemoteAddr ColorizeStatusCode FileSize tf (Some req)
    404 0 "" (2 * time.Second) "" =
  Some (tt, "10.0.0.1 GET /users 404 2s 0B").
Proof.
  intros tf GetRemoteAddr ColorizeStatusCode FileSize u req.
  split; [reflexivity|].
  rewrite (WriteHTTPResponse_format GetRemoteAddr ColorizeStatusCode FileSize
             tf req u 404 0 "" (2 * time.Second) "" eq_refl).
  vm_compute. reflexivity.
Defined.

(** A request without URL. *)
Lemma WriteHTTPResponse_panics_iff_witness :
  let tf := {| NoColor := true; escape := λ _, ""; reset := "" |} in
  let GetRemoteAddr := λ req : option httpreq.Request,
    from_option httpreq.RemoteAddr "" req in
  let ColorizeStatusCode := λ (tf : TextOutputFormatter) (statusCode : Z),
    Colorize tf (time.fmtInt "" statusCode) (ansi.ColorOther "status") in
  let FileSize := λ sizeBytes : Z, time.fmtInt "" sizeBytes +:+ "B" in
  let req := {| httpreq.Method := "GET"; httpreq.URL := None;
                httpreq.Header := ∅; httpreq.RemoteAddr := "" |} in
  WriteHTTPResponse GetRemoteAddr ColorizeStatusCode FileSize tf (Some req)
    200 42 "text/html" time.Second "" = None.
Proof.
  intros tf GetRemoteAddr ColorizeStatusCode FileSize req.
  apply (WriteHTTPResponse_panics_iff GetRemoteAddr ColorizeStatusCode
           FileSize tf (Some req) 200 42 "text/html" time.Second "").
  right. exists req. split; reflexivity.
Defined.

(** The request and the response line of one request. *)
Lemma WriteHTTPResponse_extends_request_witness :
  let tf := {| NoColor := true; escape := λ _, ""; reset := "" |} in
  let GetRemoteAddr := λ req : option httpreq.Request,
    from_option httpreq.RemoteAddr "" req in
  let ColorizeStatusCode := λ (tf : TextOutputFormatter) (statusCode : Z),
    Colorize tf (time.fmtInt "" statusCode) (ansi.ColorOther "status") in
  let FileSize := λ sizeBytes : Z, time.fmtInt "" sizeBytes +:+ "B" in
  let u := {| url.Text := "/users" |} in
  let req := {| httpreq.Method := "GET"; httpreq.URL := Some u;
                httpreq.Header := ∅; httpreq.RemoteAddr := "" |} in
  httpreq.URL req = Some u ∧
  ∃ line,
    WriteHTTPRequest GetRemoteAddr tf (Some req) "" = Some (tt, line) ∧
    WriteHTTPResponse GetRemoteAddr ColorizeStatusCode FileSize tf (Some req)
      200 42 "text/html" time.Second "" =
    Some (tt, line +:+ " 200 1s text/html 42B").
Proof.
  intros tf GetRemoteAddr ColorizeStatusCode FileSize u req.
  split; [reflexivity|].
  destruct (WriteHTTPResponse_extends_request GetRemoteAddr ColorizeStatusCode
              FileSize tf req u 200 42 "text/html" time.Second "" eq_refl)
    as (line & Hrequest & Hresponse).
  exists line. split; [exact Hrequest|]. rewrite Hresponse.
  vm_compute. reflexivity.
Defined.

(** A mutator on the nil pointer, and on the only event of a store. *)
Lemma call_panics_iff_witness :
  let ev : AuditEvent unit :=
    {| EventMeta := None; Context := ""; Principal := "alice";
       Verb := "login"; Noun := ""; Subject := ""; Property := "";
       RemoteAddress := ""; UserAgent := ""; Extra := None |} in
  let h : gmap positive (AuditEvent unit) := {[ 1%positive := ev ]} in
  call (CallWithNoun "door") None h = None ∧
  ∃ h', call (CallWithNoun "door") (Some 1%positive) h =
        Some (Some 1%positive, h').
Proof.
  intros ev h. split.
  - apply (proj1 (call_panics_iff (CallWithNoun "door") None h)). reflexivity.
  - destruct (call (CallWithNoun "door") (Some 1%positive) h)
      as [[r h']|] eqn:Hcall.
    + destruct (proj2 (call_panics_iff (CallWithNoun "door")
                         (Some 1%positive) h) r h' Hcall) as [-> _].
      by exists h'.
    + vm_compute in Hcall. discriminate Hcall.
Defined.

(** The verb set twice. *)
Lemma call_same_field_last_wins_witness :
  let ev : AuditEvent unit :=
    {| EventMeta := None; Context := ""; Principal := "alice";
       Verb := "login"; Noun := ""; Subject := ""; Property := "";
       RemoteAddress := ""; UserAgent := ""; Extra := None |} in
  let h : gmap positive (AuditEvent unit) := {[ 1%positive := ev ]} in
  field_index (CallWithVerb "read") = field_index (CallWithVerb "write") ∧
  (p ← WithVerb (Some 1%positive) "read"; WithVerb p "write") h =
  WithVerb (Some 1%positive) "write" h.
Proof.
  intros ev h. split; [reflexivity|].
  apply (call_same_field_last_wins (CallWithVerb "read") (CallWithVerb "write")
           (Some 1%positive) h eq_refl).
Defined.

(** The noun and the subject, set in both orders. *)
Lemma call_different_fields_commute_witness :
  let ev : AuditEvent unit :=
    {| EventMeta := None; Context := ""; Principal := "alice";
       Verb := "login"; Noun := ""; Subject := ""; Property := "";
       RemoteAddress := ""; UserAgent := ""; Extra := None |} in
  let h : gmap positive (AuditEvent unit) := {[ 1%positive := ev ]} in
  field_index (CallWithNoun "door") ≠ field_index (CallWithSubject "bob") ∧
  (p ← WithNoun (Some 1%positive) "door"; WithSubject p "bob") h =
  (p ← WithSubject (Some 1%positive) "bob"; WithNoun p "door") h.
Proof.
  intros ev h.
  assert (field_index (CallWithNoun "door") ≠
          field_index (CallWithSubject "bob")) as Hindex.
  { vm_compute. discriminate. }
  split; [exact Hindex|].
  apply (call_different_fields_commute (CallWithNoun "door")
           (CallWithSubject "bob") (Some 1%positive) h Hindex).
Defined.

(** A new event in a store that holds one event. *)
Lemma NewAuditEvent_fresh_witness :
  let ev : AuditEvent unit :=
    {| EventMeta := None; Context := ""; Principal := "alice";
       Verb := "login"; Noun := ""; Subject := ""; Property := "";
       RemoteAddress := ""; UserAgent := ""; Extra := None |} in
  let h : gmap positive (AuditEvent unit) := {[ 1%positive := ev ]} in
  ∃ l h', NewAuditEvent (Some tt) "bob" "logout" h = Some (Some l, h') ∧
          l ≠ 1%positive ∧
          h' !! 1%positive = Some ev.
Proof.
  intros ev h.
  destruct (NewAuditEvent_fresh (Some tt) "bob" "logout" h)
    as (l & h' & Hnew & Hfresh & _ & Hkept & _).
  exists l, h'. split; [exact Hnew|]. split.
  - intros ->. vm_compute in Hfresh. discriminate Hfresh.
  - apply Hkept. vm_compute. reflexivity.
Defined.

(** The text of a new event. *)
Lemma NewAuditEvent_WriteText_witness :
  let formatter := {| NoColor := false; escape := λ _, "<"; reset := ">" |} in
  ∃ l h' e,
    NewAuditEvent (Some tt) "bob" "logout" ∅ = Some (Some l, h') ∧
    h' !! l = Some e ∧
    WriteText e formatter [] "" =
    Some (tt, "<Principal:>bob <Verb:>logout ").
Proof.
  intros formatter.
  destruct (NewAuditEvent_WriteText (Some tt) "bob" "logout"
              (∅ : gmap positive (AuditEvent unit)) formatter [] "")
    as (l & h' & e & Hnew & He & _ & Htext).
  exists l, h', e. split; [exact Hnew|]. split; [exact He|].
  rewrite Htext by discriminate. vm_compute. reflexivity.
Defined.
